(** * CMRP: boundary repair, orientation, daylight zones and shaft expansion

    A shallow embedding of the geometric core of the CMRP extension
    ([lib/CMRP.py], [lib/CMRP_Daylight.py], [lib/CMRP_Shafts.py],
    [lib/CMRPCalculations.py]) and of the daylight entry point.

    The source computes on doubles.  The combinatorial parts (loop selection,
    defect scanning, candidate comparison, ray tests, offsetting) are modelled
    over the rationals [Q], where every example evaluates; the zone
    constructor, whose formula uses [acos] and [pi], is modelled over the
    reals [R].  Rounding, NaN and signed zeros are outside the model.

    The host application's geometry kernel (curves, intersection, line
    construction, extrusion) is not part of the repository: it is the
    interface [Kernel] below, and [planar_kernel] is one instance of it on
    which the examples are run. *)

From Stdlib Require Import String List Bool Arith ZArith QArith Qabs Lia.
From Stdlib Require Import Reals Lra Permutation.
From Equations Require Import Equations.
Import ListNotations.

Set Implicit Arguments.
Close Scope Q_scope.
Close Scope R_scope.

(** ** Exceptions and outcomes *)

Inductive exn : Type :=
| ArgumentsInconsistentException
| ArgumentOutOfRangeException
| AttributeError
| ValueError
| MissingSettingsError (message : string)
| MissingTemplateError (message : string).

Inductive outcome (A : Type) : Type :=
| Ret (a : A)
| Raise (e : exn).

Arguments Ret {A} a.
Arguments Raise {A} e.

Definition bind {A B : Type} (m : outcome A) (k : A -> outcome B) : outcome B :=
  match m with
  | Ret a => k a
  | Raise e => Raise e
  end.

Notation "x <- m ;; k" := (bind m (fun x => k))
  (at level 61, m at next level, right associativity).

(** ** Points and vectors *)

Record XYZ (A : Type) : Type := mkXYZ { Xof : A; Yof : A; Zof : A }.

Arguments mkXYZ {A} _ _ _.
Arguments Xof {A} _.
Arguments Yof {A} _.
Arguments Zof {A} _.

Definition QXYZ : Type := XYZ Q.

Definition Qgtb (a b : Q) : bool := negb (Qle_bool a b).

Definition vadd (p q : QXYZ) : QXYZ :=
  mkXYZ (Xof p + Xof q)%Q (Yof p + Yof q)%Q (Zof p + Zof q)%Q.

Definition vsub (p q : QXYZ) : QXYZ :=
  mkXYZ (Xof p - Xof q)%Q (Yof p - Yof q)%Q (Zof p - Zof q)%Q.

Definition vscale (p : QXYZ) (k : Q) : QXYZ :=
  mkXYZ (Xof p * k)%Q (Yof p * k)%Q (Zof p * k)%Q.

Definition BasisZ : QXYZ := mkXYZ 0%Q 0%Q 1%Q.

Definition CrossProduct (a b : QXYZ) : QXYZ :=
  mkXYZ (Yof a * Zof b - Zof a * Yof b)%Q
        (Zof a * Xof b - Xof a * Zof b)%Q
        (Xof a * Yof b - Yof a * Xof b)%Q.

(** ** The host kernel *)

Inductive SetComparisonResult : Type :=
| Overlap | Subset | Superset | Disjoint | Equal.

Definition is_Overlap (r : SetComparisonResult) : bool :=
  match r with Overlap => true | _ => false end.

(** What the source uses of the host's curves.  [Intersect] gives the
    comparison result together with the intersection result array,
    [CreateBound] is [Line.CreateBound], which raises
    [ArgumentsInconsistentException] ([None]) on points it does not accept,
    [CreateExtrusionGeometry] is [None] when the host raises.  A [CurveLoop]
    is the list of the curves appended to it; what the host checks when a
    curve is appended is left to the operation that consumes the loop. *)
Class Kernel : Type := {
  Curve : Type;
  Solid : Type;
  GetEndPoint : Curve -> nat -> QXYZ;
  IsBound : Curve -> bool;
  Length : Curve -> Q;
  GetEndParameter : Curve -> nat -> Q;
  Intersect : Curve -> Curve -> SetComparisonResult * list QXYZ;
  CreateBound : QXYZ -> QXYZ -> option Curve;
  Normalize : QXYZ -> QXYZ;
  CreateExtrusionGeometry : list (list Curve) -> QXYZ -> Q -> option Solid;
  Volume : Solid -> Q;
  units_to_internal : Q -> Q
}.

Section Boundary.

Context {K : Kernel}.

Record BoundarySegment : Type := { GetCurve : Curve }.

(** [Line.CreateBound] as a computation that may raise. *)
Definition Line_CreateBound (p q : QXYZ) : outcome Curve :=
  match CreateBound p q with
  | Some c => Ret c
  | None => Raise ArgumentsInconsistentException
  end.

(** [results.Item[0].XYZPoint] *)
Definition Item0 (results : list QXYZ) : outcome QXYZ :=
  match results with
  | p :: _ => Ret p
  | [] => Raise ArgumentOutOfRangeException
  end.

(** *** [CMRP.calculate_surface_area_of_boundary] *)
Definition calculate_surface_area_of_boundary (boundary : list Curve) : Q :=
  let surface_area :=
    fold_left
      (fun surface_area curve =>
         if IsBound curve
         then (surface_area
               + Length curve * GetEndParameter curve 0 * GetEndParameter curve 1)%Q
         else surface_area)
      boundary 0%Q in
  (Qabs surface_area / 2)%Q.

(** *** [CMRP_Daylight.get_largest_curveloop_from_room_boundary]

    The loop state is the pair [(result, largest_area)]; the source never
    assigns [largest_area] inside the loop. *)
Definition largest_loop_step (st : option (list Curve) * Q)
    (segments : list BoundarySegment) : option (list Curve) * Q :=
  let '(result, largest_area) := st in
  let temp := map GetCurve segments in
  let surface_area := calculate_surface_area_of_boundary temp in
  if Qgtb surface_area largest_area
  then (Some temp, largest_area)
  else (result, largest_area).

Definition get_largest_curveloop_from_room_boundary
    (room_boundary_segments : list (list BoundarySegment)) : option (list Curve) :=
  match room_boundary_segments with
  | [segments] => Some (map GetCurve segments)
  | _ => fst (fold_left largest_loop_step room_boundary_segments (None, 0%Q))
  end.

(** *** [CMRP.remove_single_imperfection_from_boundary]

    The two nested [for] loops visit the index pairs in lexicographic order;
    [scan_from] is the inner loop for a fixed [current_index], walking
    [room_boundary[intersect_index:]], and [scan] the outer one, walking
    [room_boundary[current_index:]].  They stop at the first pair that is not
    skipped and whose [Intersect] is [Overlap]. *)
Record Defect : Type := mkDefect {
  current_index : nat;
  current_curve : Curve;
  intersect_index : nat;
  intersect_curve : Curve;
  results : list QXYZ
}.

Fixpoint scan_from (n current_index intersect_index : nat) (ci : Curve)
    (rest : list Curve) : option (nat * Curve * list QXYZ) :=
  match rest with
  | [] => None
  | cj :: rest' =>
    if (current_index =? 0)%nat && (intersect_index =? n - 1)%nat
    then scan_from n current_index (S intersect_index) ci rest'
    else
      let '(intersect, results) := Intersect ci cj in
      if is_Overlap intersect
      then Some (intersect_index, cj, results)
      else scan_from n current_index (S intersect_index) ci rest'
  end.

Fixpoint scan (n current_index : nat) (tail : list Curve) : option Defect :=
  match tail with
  | [] => None
  | ci :: tail' =>
    match scan_from n current_index (current_index + 2) ci (skipn 1 tail') with
    | Some (j, cj, results) => Some (mkDefect current_index ci j cj results)
    | None => scan n (S current_index) tail'
    end
  end.

Definition first_overlap (room_boundary : list Curve) : option Defect :=
  scan (length room_boundary) 0 room_boundary.

(** [room_boundary[lo:hi]] *)
Definition slice (lo hi : nat) (l : list Curve) : list Curve :=
  firstn (hi - lo) (skipn lo l).

(** [room_boundary[1:] + [room_boundary[0]]] *)
Definition rotate (room_boundary : list Curve) : list Curve :=
  skipn 1 room_boundary ++ firstn 1 room_boundary.

(** The body executed at the first overlapping pair when the loop is not
    rotated: situation 1 is built outside the [try], situation 2 inside it. *)
Definition repair_defect (room_boundary : list Curve) (d : Defect)
  : outcome (list Curve) :=
  intersection_point <- Item0 (results d) ;;
  s1a <- Line_CreateBound (GetEndPoint (current_curve d) 0) intersection_point ;;
  s1b <- Line_CreateBound intersection_point (GetEndPoint (intersect_curve d) 1) ;;
  let new_curves_situation_1 := [s1a; s1b] in
  let boundary_situation_1 :=
    firstn (current_index d) room_boundary
    ++ new_curves_situation_1
    ++ skipn (intersect_index d + 1) room_boundary in
  match
    (s2a <- Line_CreateBound (GetEndPoint (intersect_curve d) 0) intersection_point ;;
     s2b <- Line_CreateBound intersection_point (GetEndPoint (current_curve d) 1) ;;
     Ret [s2a; s2b])
  with
  | Ret new_curves_situation_2 =>
    let boundary_situation_2 :=
      slice (current_index d + 1) (intersect_index d) room_boundary
      ++ new_curves_situation_2 in
    if Qgtb (calculate_surface_area_of_boundary boundary_situation_1)
            (calculate_surface_area_of_boundary boundary_situation_2)
    then Ret boundary_situation_1
    else Ret boundary_situation_2
  | Raise ArgumentsInconsistentException => Ret boundary_situation_1
  | Raise e => Raise e
  end.

Equations? remove_single_imperfection_from_boundary
    (room_boundary : list Curve) (nr_of_recursive : nat)
  : outcome (list Curve) by wf (4 - nr_of_recursive) lt :=
remove_single_imperfection_from_boundary room_boundary nr_of_recursive
  with first_overlap room_boundary := {
  | None => Ret room_boundary
  | Some d with Nat.eq_dec (current_index d) 0, lt_dec nr_of_recursive 4 := {
    | left _, left _ =>
      remove_single_imperfection_from_boundary
        (rotate room_boundary) (nr_of_recursive + 1)
    | _, _ => repair_defect room_boundary d } }.
Proof.
  clear remove_single_imperfection_from_boundary.
  do 4 (destruct nr_of_recursive as [|nr_of_recursive]; [simpl; lia|]); lia.
Defined.

(** What a call does once it no longer rotates: return the loop when the
    scan finds nothing, repair the first overlapping pair otherwise. *)
Definition settle (room_boundary : list Curve) : outcome (list Curve) :=
  match first_overlap room_boundary with
  | None => Ret room_boundary
  | Some d => repair_defect room_boundary d
  end.

(** *** [CMRP.remove_imperfections_from_boundary] *)
Fixpoint remove_imperfections_loop (iterations : nat) (room_boundary : list Curve)
  : outcome (list Curve) :=
  match iterations with
  | O => Ret room_boundary
  | S iterations' =>
    new_room_boundary <- remove_single_imperfection_from_boundary room_boundary 0 ;;
    if (length new_room_boundary =? length room_boundary)%nat
    then Ret new_room_boundary
    else remove_imperfections_loop iterations' new_room_boundary
  end.

Definition max_iterations : nat := 10.

Definition remove_imperfections_from_boundary (room_boundary : list Curve)
  : outcome (list Curve) :=
  remove_imperfections_loop max_iterations room_boundary.

(** *** [CMRP_Daylight.adapt_room_boundary_to_useful_curveloop]
    (a [CurveLoop] is the list of its curves) *)
Definition adapt_room_boundary_to_useful_curveloop
    (room_boundary_segments : list (list BoundarySegment))
  : outcome (option (list Curve)) :=
  match get_largest_curveloop_from_room_boundary room_boundary_segments with
  | None => Ret None
  | Some room_boundary =>
    curve_loop <- remove_imperfections_from_boundary room_boundary ;;
    Ret (Some curve_loop)
  end.

(** *** [CMRPCalculations.set_z_coordinate_of_line] *)
Definition set_z_coordinate_of_line (line : Curve) (new_z_coordinate : Q)
  : outcome Curve :=
  let start := GetEndPoint line 0 in
  let end_ := GetEndPoint line 1 in
  Line_CreateBound (mkXYZ (Xof start) (Yof start) new_z_coordinate)
                   (mkXYZ (Xof end_) (Yof end_) new_z_coordinate).

(** *** [CMRP_Daylight.get_correct_facing_orientation] *)
Record Window : Type := {
  Location_Point : QXYZ;
  FacingOrientation : QXYZ
}.

Definition OrientationResult : Type := (option QXYZ * option QXYZ)%type.

Definition hit (orientation : QXYZ) (results : list QXYZ) (curve : Curve)
  : outcome OrientationResult :=
  item <- Item0 results ;;
  Ret (Some orientation,
       Some (mkXYZ (Xof item) (Yof item) (Zof (GetEndPoint curve 0)))).

(** The [for curve in room_boundary] loop with its [if]/[elif]. *)
Fixpoint orientation_loop (facing_orientation reverse_orientation : QXYZ)
    (facing_line reverse_line : Curve) (room_boundary : list Curve)
  : outcome OrientationResult :=
  match room_boundary with
  | [] => Ret (None, None)
  | curve :: rest =>
    flat <- set_z_coordinate_of_line curve 0 ;;
    let '(cmp, results) := Intersect flat reverse_line in
    if is_Overlap cmp
    then hit reverse_orientation results curve
    else
      flat' <- set_z_coordinate_of_line curve 0 ;;
      let '(cmp', results') := Intersect flat' facing_line in
      if is_Overlap cmp'
      then hit facing_orientation results' curve
      else orientation_loop facing_orientation reverse_orientation
             facing_line reverse_line rest
  end.

Definition test_ray (location_point orientation : QXYZ) : outcome Curve :=
  line <- Line_CreateBound location_point
            (vadd location_point (vscale orientation (units_to_internal 1000))) ;;
  set_z_coordinate_of_line line 0.

Definition get_correct_facing_orientation (window : Window)
    (room_boundary : list Curve) : outcome OrientationResult :=
  let location_point := Location_Point window in
  let facing_orientation := FacingOrientation window in
  let reverse_orientation :=
    mkXYZ (- Xof facing_orientation)%Q (- Yof facing_orientation)%Q
          (- Zof facing_orientation)%Q in
  facing_line <- test_ray location_point facing_orientation ;;
  reverse_line <- test_ray location_point reverse_orientation ;;
  orientation_loop facing_orientation reverse_orientation
    facing_line reverse_line room_boundary.

(** The loop's test of one [curve] against a ray: the flattened curve and
    the ray intersect in at least the point [p], respectively do not
    overlap. *)
Definition hit_by (ray curve : Curve) (p : QXYZ) : Prop :=
  exists flat rest,
    set_z_coordinate_of_line curve 0 = Ret flat
    /\ Intersect flat ray = (Overlap, p :: rest).

Definition missed_by (ray curve : Curve) : Prop :=
  exists flat,
    set_z_coordinate_of_line curve 0 = Ret flat
    /\ is_Overlap (fst (Intersect flat ray)) = false.

Definition reverse_of (window : Window) : QXYZ :=
  mkXYZ (- Xof (FacingOrientation window))%Q (- Yof (FacingOrientation window))%Q
        (- Zof (FacingOrientation window))%Q.

(** The point reported for a hit: X and Y of the intersection, Z of the
    boundary curve's start. *)
Definition reported (p : QXYZ) (curve : Curve) : QXYZ :=
  mkXYZ (Xof p) (Yof p) (Zof (GetEndPoint curve 0)).

End Boundary.

(** ** Shaft expansion: [CMRP_Shafts.expand_boundary] *)

Section Shafts.

Context {K : Kernel}.

(** [direction.CrossProduct(XYZ.BasisZ) * offset_distance] with
    [direction = (from - to).Normalize()] *)
Definition offset_vector (from to : QXYZ) (offset_distance : Q) : QXYZ :=
  let direction := Normalize (vsub from to) in
  vscale (CrossProduct direction BasisZ) offset_distance.

(** Step 0: [vectors] and [reverse_vectors]. *)
Definition normal_vectors (curve_loop : list Curve) (offset_distance : Q)
  : list QXYZ :=
  map (fun curve =>
         offset_vector (GetEndPoint curve 0) (GetEndPoint curve 1) offset_distance)
      curve_loop.

Definition reverse_vectors (curve_loop : list Curve) (offset_distance : Q)
  : list QXYZ :=
  map (fun curve =>
         offset_vector (GetEndPoint curve 1) (GetEndPoint curve 0) offset_distance)
      curve_loop.

(** [vectors[i]] for an index that the source has reduced modulo
    [len(vectors)]; Python's [%] with a positive divisor is [Z.modulo]. *)
Definition item (vectors : list QXYZ) (i : Z) : option QXYZ :=
  nth_error vectors (Z.to_nat i).

(** The body of one [try]: the loop over [curve_loop] with its running
    [index].  [None] is any exception, which the bare [except] swallows. *)
Fixpoint offset_lines (vectors : list QXYZ) (index : Z) (curves : list Curve)
  : option (list Curve) :=
  match curves with
  | [] => Some []
  | curve :: rest =>
    let len := Z.of_nat (length vectors) in
    match item vectors index,
          item vectors ((index - 1) mod len),
          item vectors ((index + 1) mod len) with
    | Some v, Some v_prev, Some v_next =>
      let offset_startpoint := vadd (vadd (GetEndPoint curve 0) v) v_prev in
      let offset_endpoint := vadd (vadd (GetEndPoint curve 1) v) v_next in
      match CreateBound offset_startpoint offset_endpoint with
      | Some line =>
        match offset_lines vectors (index + 1) rest with
        | Some lines => Some (line :: lines)
        | None => None
        end
      | None => None
      end
    | _, _, _ => None
    end
  end.

Definition try_expand (vectors : list QXYZ) (curve_loop : list Curve)
    (shaft_height : Q) : option Solid :=
  match offset_lines vectors 0 curve_loop with
  | Some expanded_curve_loop =>
    CreateExtrusionGeometry [expanded_curve_loop] (mkXYZ 0%Q 0%Q 1%Q) shaft_height
  | None => None
  end.

Definition expand_boundary (curve_loop : list Curve)
    (offset_distance shaft_height : Q) : option Solid :=
  let vectors := normal_vectors curve_loop offset_distance in
  let reverse_vectors := reverse_vectors curve_loop offset_distance in
  let expanded_solid := try_expand vectors curve_loop shaft_height in
  let reverse_expanded_solid := try_expand reverse_vectors curve_loop shaft_height in
  match expanded_solid, reverse_expanded_solid with
  | None, _ => reverse_expanded_solid
  | Some _, None => expanded_solid
  | Some e, Some r =>
    if Qgtb (Volume e) (Volume r)
    then expanded_solid
    else reverse_expanded_solid
  end.

(** The spec's reading of a candidate: line [i] joins the two ends of
    segment [i], each moved by the vectors of the two segments that meet
    there (cyclically), up to equality of rationals. *)
Definition veq (p q : QXYZ) : Prop :=
  (Xof p == Xof q /\ Yof p == Yof q /\ Zof p == Zof q)%Q.

Definition cyclic_prev (n i : nat) : nat := (i + n - 1) mod n.

Definition cyclic_next (n i : nat) : nat := (i + 1) mod n.

Definition joins_displaced_vertices (vectors : list QXYZ)
    (curve_loop lines : list Curve) : Prop :=
  length lines = length curve_loop /\
  forall i curve line,
    nth_error curve_loop i = Some curve ->
    nth_error lines i = Some line ->
    exists v_prev v v_next P Q,
      nth_error vectors (cyclic_prev (length vectors) i) = Some v_prev /\
      nth_error vectors i = Some v /\
      nth_error vectors (cyclic_next (length vectors) i) = Some v_next /\
      CreateBound P Q = Some line /\
      veq P (vadd (GetEndPoint curve 0) (vadd v_prev v)) /\
      veq Q (vadd (GetEndPoint curve 1) (vadd v v_next)).

End Shafts.

(** ** A planar instance of the kernel

    Horizontal straight lines with rational end points.  [Intersect] is
    exact for lines that are not parallel (parallel lines are reported
    [Disjoint]; the source only asks whether the answer is [Overlap]).
    Lengths and unit vectors are exact for axis-parallel lines, which is all
    the examples use.  A line made by [CreateBound] is parametrised from 0
    to its length; points that coincide are refused.  An extrusion is
    refused for an empty or open profile and for a height that is not
    positive; its volume is the profile's polygon area times the height. *)

Record PLine : Type := mkPLine {
  pl_start : QXYZ;
  pl_end : QXYZ;
  pl_param0 : Q;
  pl_param1 : Q;
  pl_bound : bool
}.

Record PSolid : Type := mkPSolid {
  ps_profile : list PLine;
  ps_height : Q
}.

Definition vred (p : QXYZ) : QXYZ :=
  mkXYZ (Qred (Xof p)) (Qred (Yof p)) (Qred (Zof p)).

Definition veqb (p q : QXYZ) : bool :=
  Qeq_bool (Xof p) (Xof q) && Qeq_bool (Yof p) (Yof q) && Qeq_bool (Zof p) (Zof q).

Definition norm1 (v : QXYZ) : Q :=
  (Qabs (Xof v) + Qabs (Yof v) + Qabs (Zof v))%Q.

Definition pl_length (c : PLine) : Q := Qred (norm1 (vsub (pl_end c) (pl_start c))).

Definition pl_endpoint (c : PLine) (i : nat) : QXYZ :=
  match i with O => pl_start c | _ => pl_end c end.

Definition pl_parameter (c : PLine) (i : nat) : Q :=
  match i with O => pl_param0 c | _ => pl_param1 c end.

Definition pl_create (p q : QXYZ) : option PLine :=
  if veqb p q then None
  else Some (mkPLine p q 0%Q (Qred (norm1 (vsub q p))) true).

Definition cross2 (a b : QXYZ) : Q := (Xof a * Yof b - Yof a * Xof b)%Q.

Definition in_unit (t : Q) : bool := Qle_bool 0%Q t && Qle_bool t 1%Q.

Definition pl_intersect (c1 c2 : PLine) : SetComparisonResult * list QXYZ :=
  let p := pl_start c1 in
  let r := vsub (pl_end c1) (pl_start c1) in
  let q := pl_start c2 in
  let s := vsub (pl_end c2) (pl_start c2) in
  let rxs := cross2 r s in
  if negb (Qeq_bool (Zof p) (Zof q)) || Qeq_bool rxs 0%Q then (Disjoint, [])
  else
    let t := (cross2 (vsub q p) s / rxs)%Q in
    let u := (cross2 (vsub q p) r / rxs)%Q in
    if in_unit t && in_unit u
    then (Overlap, [vred (vadd p (vscale r t))])
    else (Disjoint, []).

Definition pl_normalize (v : QXYZ) : QXYZ :=
  if Qeq_bool (norm1 v) 0%Q then v else vred (vscale v (/ norm1 v)%Q).

Fixpoint pl_closed (first : QXYZ) (profile : list PLine) : bool :=
  match profile with
  | [] => false
  | [c] => veqb (pl_end c) first
  | c :: (c' :: _) as rest => veqb (pl_end c) (pl_start c') && pl_closed first rest
  end.

Definition shoelace (profile : list PLine) : Q :=
  (Qabs (fold_left
           (fun acc c => (acc + cross2 (pl_start c) (pl_end c))%Q) profile 0%Q) / 2)%Q.

Definition pl_extrude (profiles : list (list PLine)) (direction : QXYZ) (height : Q)
  : option PSolid :=
  match profiles with
  | [(c :: _) as profile] =>
    if pl_closed (pl_start c) profile && Qgtb height 0%Q
    then Some (mkPSolid profile height)
    else None
  | _ => None
  end.

Definition ps_volume (s : PSolid) : Q := Qred (shoelace (ps_profile s) * ps_height s)%Q.

(** Millimetres to feet. *)
Definition mm_to_internal (x : Q) : Q := Qred (x * (5 # 1524))%Q.

#[export] Instance planar_kernel : Kernel := {|
  Curve := PLine;
  Solid := PSolid;
  GetEndPoint := pl_endpoint;
  IsBound := pl_bound;
  Length := pl_length;
  GetEndParameter := pl_parameter;
  Intersect := pl_intersect;
  CreateBound := pl_create;
  Normalize := pl_normalize;
  CreateExtrusionGeometry := pl_extrude;
  Volume := ps_volume;
  units_to_internal := mm_to_internal
|}.

(** A bound line from [(x0, y0, 0)] to [(x1, y1, 0)] whose parameter
    interval starts at [param0] (as [MakeBound] on an unbound line gives). *)
Definition hline (x0 y0 x1 y1 : Z) (param0 : Z) : PLine :=
  let p := mkXYZ (inject_Z x0) (inject_Z y0) 0%Q in
  let q := mkXYZ (inject_Z x1) (inject_Z y1) 0%Q in
  mkPLine p q (inject_Z param0) (Qred (inject_Z param0 + norm1 (vsub q p))%Q) true.

(** ** The zone constructor ([CMRP.get_size_from_window],
       [CMRP_Daylight.calculate_full_daylight_zone])

    Over the reals.  [logger.error] calls are not modelled here. *)

Definition RXYZ : Type := XYZ R.

Definition radd (p q : RXYZ) : RXYZ :=
  mkXYZ (Xof p + Xof q)%R (Yof p + Yof q)%R (Zof p + Zof q)%R.

Record Param : Type := { AsDouble : R }.

Record FamilySymbol : Type := {
  Symbol_LookupParameter : string -> option Param
}.

Record WindowElement : Type := {
  LookupParameter : string -> option Param;
  Symbol : FamilySymbol;
  Location : RXYZ
}.

(** [math.copysign(1.0, x)] *)
Definition copysign1 (x : R) : R :=
  if Rlt_dec x 0 then (-1)%R else 1%R.

(** [math.acos], which raises [ValueError] outside [[-1, 1]]. *)
Definition math_acos (x : R) : outcome R :=
  if Rle_dec (-1) x then
    if Rle_dec x 1 then Ret (acos x) else Raise ValueError
  else Raise ValueError.

(** [CMRPCalculations.rotate_z]: the host's rotation about the Z axis
    through the origin, applied to a point. *)
Definition rotate_z (point : RXYZ) (angle : R) : RXYZ :=
  mkXYZ (Xof point * cos angle - Yof point * sin angle)%R
        (Xof point * sin angle + Yof point * cos angle)%R
        (Zof point).

Definition get_size_from_window (window : WindowElement)
    (param_window_height param_window_width : string) : option R * option R :=
  let param_height :=
    match LookupParameter window param_window_height with
    | None => Symbol_LookupParameter (Symbol window) param_window_height
    | Some p => Some p
    end in
  let param_width :=
    match LookupParameter window param_window_width with
    | None => Symbol_LookupParameter (Symbol window) param_window_width
    | Some p => Some p
    end in
  (* try: ... except AttributeError: return None, None *)
  match param_height, param_width with
  | Some ph, Some pw =>
    let height := AsDouble ph in
    let width := AsDouble pw in
    if Req_dec_T height 0 then (None, None)
    else if Req_dec_T width 0 then (None, None)
    else (Some height, Some width)
  | _, _ => (None, None)
  end.

(** The value a size parameter resolves to: the instance parameter, or the
    type parameter when the instance has none. *)
Definition resolved_value (window : WindowElement) (name : string) : option R :=
  match LookupParameter window name with
  | Some p => Some (AsDouble p)
  | None =>
    match Symbol_LookupParameter (Symbol window) name with
    | Some p => Some (AsDouble p)
    | None => None
    end
  end.

Section Zone.

(** The host's lines over real points ([Line.CreateBound]); a [CurveLoop]
    is the list of the curves appended to it. *)
Variable RLine : Type.
Variable CreateBoundR : RXYZ -> RXYZ -> option RLine.

Definition Line_CreateBoundR (p q : RXYZ) : outcome RLine :=
  match CreateBoundR p q with
  | Some c => Ret c
  | None => Raise ArgumentsInconsistentException
  end.

Definition calculate_full_daylight_zone (window : WindowElement)
    (facing_orientation intersection_point : RXYZ)
    (param_window_height param_window_width : string)
  : outcome (option (list RLine)) :=
  match get_size_from_window window param_window_height param_window_width with
  | (Some height, Some width) =>
    let location := Location window in
    a <- math_acos (Yof facing_orientation) ;;
    let angle := (- copysign1 (Xof facing_orientation) * a + PI)%R in
    let p1 := mkXYZ (- width / 2)%R 0%R 0%R in
    let p2 := mkXYZ (width / 2)%R 0%R 0%R in
    let p3 := mkXYZ (height + width / 2)%R (- height)%R 0%R in
    let p4 := mkXYZ (- height - width / 2)%R (- height)%R 0%R in
    let new_location :=
      mkXYZ (Xof intersection_point) (Yof intersection_point) (Zof location) in
    let p1 := radd (rotate_z p1 angle) new_location in
    let p2 := radd (rotate_z p2 angle) new_location in
    let p3 := radd (rotate_z p3 angle) new_location in
    let p4 := radd (rotate_z p4 angle) new_location in
    l12 <- Line_CreateBoundR p1 p2 ;;
    l23 <- Line_CreateBoundR p2 p3 ;;
    l34 <- Line_CreateBoundR p3 p4 ;;
    l41 <- Line_CreateBoundR p4 p1 ;;
    Ret (Some [l12; l23; l34; l41])
  | _ => Ret None
  end.

(** The closed loop the host builds through four given vertices. *)
Definition loop_through (p1 p2 p3 p4 : RXYZ) : outcome (option (list RLine)) :=
  l12 <- Line_CreateBoundR p1 p2 ;;
  l23 <- Line_CreateBoundR p2 p3 ;;
  l34 <- Line_CreateBoundR p3 p4 ;;
  l41 <- Line_CreateBoundR p4 p1 ;;
  Ret (Some [l12; l23; l34; l41]).

End Zone.

(** The zone of the claim, following the spec's words: a trapezoid at the
    origin (near edge of half-width [width/2], far edge at distance [height]
    with half-width [height + width/2]), rotated about Z by
    [-sign(facing.x) * acos(facing.y) + pi], translated to the anchor. *)
Definition sign (x : R) : R :=
  if Rlt_dec x 0 then (-1)%R else if Rlt_dec 0 x then 1%R else 0%R.

Definition trapezoid_at_origin (width height : R) : list RXYZ :=
  [ mkXYZ (- (width / 2))%R 0%R 0%R;
    mkXYZ (width / 2)%R 0%R 0%R;
    mkXYZ (height + width / 2)%R (- height)%R 0%R;
    mkXYZ (- (height + width / 2))%R (- height)%R 0%R ].

Definition placed (angle : R) (anchor : RXYZ) (corners : list RXYZ) : list RXYZ :=
  map (fun p => radd (rotate_z p angle) anchor) corners.

Definition spec_angle (facing : RXYZ) : R :=
  (- sign (Xof facing) * acos (Yof facing) + PI)%R.

Definition code_angle (facing : RXYZ) : R :=
  (- copysign1 (Xof facing) * acos (Yof facing) + PI)%R.

Definition resolved_anchor (window : WindowElement) (intersection_point : RXYZ)
  : RXYZ :=
  mkXYZ (Xof intersection_point) (Yof intersection_point) (Zof (Location window)).

Definition loop_of_corners (RLine : Type) (mk : RXYZ -> RXYZ -> option RLine)
    (corners : list RXYZ) : outcome (option (list RLine)) :=
  match corners with
  | [p1; p2; p3; p4] => loop_through mk p1 p2 p3 p4
  | _ => Ret None
  end.

(** A host that accepts every pair of points as a line. *)
Definition free_line (p q : RXYZ) : option (RXYZ * RXYZ) := Some (p, q).

Definition window_of_size (height width : R) : WindowElement :=
  {| LookupParameter := fun name =>
       if String.eqb name "Height"%string then Some {| AsDouble := height |}
       else if String.eqb name "Width"%string then Some {| AsDouble := width |}
       else None;
     Symbol := {| Symbol_LookupParameter := fun _ => None |};
     Location := mkXYZ 0%R 0%R 0%R |}.

Definition rscale (k : R) (v : RXYZ) : RXYZ :=
  mkXYZ (k * Xof v)%R (k * Yof v)%R (k * Zof v)%R.

Definition south : RXYZ := mkXYZ 0%R (-1)%R 0%R.

Definition origin : RXYZ := mkXYZ 0%R 0%R 0%R.

(** X of the first corner of a zone. *)
Definition first_corner_x (zone : outcome (option (list (RXYZ * RXYZ)))) : R :=
  match zone with
  | Ret (Some ((p, _) :: _)) => Xof p
  | _ => 0%R
  end.

(** ** Settings and the daylight entry point
       ([CMRPSettings.Settings], [CMRP_Daylight.check_necessary_settings],
       [CMRP_Daylight.run_daylight_script]) *)

Record Settings : Type := {
  project_name : option string;
  project_address : option string;
  architect_name : option string;
  model_levels_grids : option string;
  model_rooms_windows : option string;
  model_shafts : option string;
  param_window_height : option string;
  param_window_width : option string;
  selected_window_families : option (list (string * list string));
  mapping_file : option string
}.

Definition DAYLIGHT_TEMPLATE_NAME : string := "31_Daylight".

(** [v is None] and [v == ""] on a value that is [None] or a string. *)
Definition is_None {A : Type} (v : option A) : bool :=
  match v with None => true | Some _ => false end.

Definition eq_empty (v : option string) : bool :=
  match v with Some s => String.eqb s "" | None => false end.

(** [len(d.keys()) == 0] *)
Definition no_keys {A B : Type} (d : list (A * B)) : bool :=
  (length (map fst d) =? 0)%nat.

Definition check_necessary_settings (settings : Settings) : outcome unit :=
  if is_None (model_levels_grids settings) || eq_empty (model_levels_grids settings)
  then Raise (MissingSettingsError
         (DAYLIGHT_TEMPLATE_NAME
          ++ ": The model for Levels & Grids is missing in the settings."))
  else if is_None (model_rooms_windows settings)
          || eq_empty (model_rooms_windows settings)
  then Raise (MissingSettingsError
         (DAYLIGHT_TEMPLATE_NAME
          ++ ": The model for Rooms & Windows is missing in the settings."))
  else if is_None (param_window_height settings)
          || eq_empty (param_window_height settings)
  then Raise (MissingSettingsError
         (DAYLIGHT_TEMPLATE_NAME
          ++ ": The parameter for the height of windows is missing in the settings."))
  else if is_None (param_window_width settings)
          || eq_empty (param_window_height settings)
  then Raise (MissingSettingsError
         (DAYLIGHT_TEMPLATE_NAME
          ++ ": The parameter for the height of windows is missing in the settings."))
  else if match selected_window_families settings with
          | None => true
          | Some families => no_keys families
          end
  then Raise (MissingSettingsError
         (DAYLIGHT_TEMPLATE_NAME
          ++ ": No window families or type were selected, check in the settings."))
  else Ret tt.

(** The host document as the entry point sees it: the operations that
    changed it, oldest first, and the log. *)
Inductive HostOp : Type :=
| DeleteAreaPlans (template_name : string)
| CreateElement (description : string).

Inductive LogLevel : Type := Critical | Success.

Record Host : Type := mkHost {
  journal : list HostOp;
  log : list (LogLevel * string)
}.

Definition delete_area_plans (template_name : string) (h : Host) : Host :=
  mkHost (journal h ++ [DeleteAreaPlans template_name]) (log h).

Definition logger (level : LogLevel) (message : string) (h : Host) : Host :=
  mkHost (journal h) (log h ++ [(level, message)]).

Section EntryPoint.

(** Steps 1 to 5 of the script (retrieving data, creating area plans and
    filled regions): host orchestration, taken as given.  They may raise,
    among others, [MissingTemplateError]. *)
Variable daylight_steps : Settings -> Host -> Host * outcome unit.

(** The [try] body. *)
Definition daylight_body (settings : Settings) (h : Host) : Host * outcome unit :=
  match check_necessary_settings settings with
  | Raise e => (h, Raise e)
  | Ret _ =>
    let h := delete_area_plans DAYLIGHT_TEMPLATE_NAME h in
    match daylight_steps settings h with
    | (h, Raise e) => (h, Raise e)
    | (h, Ret _) =>
      (logger Success
         (DAYLIGHT_TEMPLATE_NAME ++ ": Script completed without critical errors.") h,
       Ret tt)
    end
  end.

Definition run_daylight_script (settings : Settings) (h : Host)
  : Host * outcome unit :=
  match daylight_body settings h with
  | (h, Raise (MissingSettingsError message)) => (logger Critical message h, Ret tt)
  | (h, Raise (MissingTemplateError message)) => (logger Critical message h, Ret tt)
  | r => r
  end.

End EntryPoint.

(** A required field is [None] or empty. *)
Definition missing_text (v : option string) : bool :=
  match v with None => true | Some s => String.eqb s "" end.

Definition required_setting_missing (settings : Settings) : bool :=
  missing_text (model_levels_grids settings)
  || missing_text (model_rooms_windows settings)
  || missing_text (param_window_height settings)
  || missing_text (param_window_width settings)
  || match selected_window_families settings with
     | None => true
     | Some families => no_keys families
     end.

Definition settings_without_width : Settings := {|
  project_name := Some "Project"%string;
  project_address := Some "Address"%string;
  architect_name := Some "Architect"%string;
  model_levels_grids := Some "Levels.rvt"%string;
  model_rooms_windows := Some "Rooms.rvt"%string;
  model_shafts := Some "Shafts.rvt"%string;
  param_window_height := Some "Height"%string;
  param_window_width := Some ""%string;
  selected_window_families := Some [("Window"%string, ["Type 1"%string])];
  mapping_file := Some "mapping.xlsx"%string
|}.

Definition empty_host : Host := mkHost [] [].

(** Steps that do nothing. *)
Definition no_steps (settings : Settings) (h : Host) : Host * outcome unit :=
  (h, Ret tt).

(** ** Example boundaries on the planar kernel *)

Definition segment_of (c : PLine) : BoundarySegment (K := planar_kernel) :=
  {| GetCurve := c |}.

(** Two loops for loop selection: [big_loop] has the larger computed area. *)
Definition big_loop : list PLine :=
  [hline 0 0 10 0 1; hline 10 0 10 10 1; hline 10 10 0 10 1; hline 0 10 0 0 1].

Definition small_loop : list PLine :=
  [hline 4 4 5 4 1; hline 5 4 5 5 1; hline 5 5 4 5 1; hline 4 5 4 4 1].

(** A 4 x 4 shaft outline. *)
Definition shaft_square : list PLine :=
  [hline 0 0 4 0 0; hline 4 0 4 4 0; hline 4 4 0 4 0; hline 0 4 0 0 0].

(** A 2 x 2 room, its bottom edge first, and a window in its middle that
    faces the bottom edge. *)
Definition square_room : list PLine :=
  [hline 0 0 2 0 0; hline 2 0 2 2 0; hline 2 2 0 2 0; hline 0 2 0 0 0].

Definition window_facing_down : Window :=
  {| Location_Point := mkXYZ 1%Q 1%Q 0%Q;
     FacingOrientation := mkXYZ 0%Q (-1)%Q 0%Q |}.

(** The same window turned to face the left edge. *)
Definition window_facing_left : Window :=
  {| Location_Point := mkXYZ 1%Q 1%Q 0%Q;
     FacingOrientation := mkXYZ (-1)%Q 0%Q 0%Q |}.

(** A window 20 units away from the room. *)
Definition window_far_away : Window :=
  {| Location_Point := mkXYZ 20%Q 20%Q 0%Q;
     FacingOrientation := mkXYZ 0%Q (-1)%Q 0%Q |}.

(** The [k]-th curl: right, up, left and down, the last segment crossing
    the first. *)
Definition curl (k : Z) : list PLine :=
  let x := k in
  let y := (-2 * k)%Z in
  [ hline x y (x + 2) y 0;
    hline (x + 2) y (x + 2) (y + 1) 0;
    hline (x + 2) (y + 1) (x + 1) (y + 1) 0;
    hline (x + 1) (y + 1) (x + 1) (y - 2) 0 ].

(** One curl whose crossed segment is the first of the loop. *)
Definition first_crossed : list PLine :=
  curl 0 ++ [hline 1 (-2) (-1) (-2) 0; hline (-1) (-2) (-1) 0 0; hline (-1) 0 0 0 0].

(** A boundary where segment [4k+1] is crossed by segment [4k+4], for
    [k < n]: [n] curls in a row, closed by a first segment and three last
    ones that cross nothing.  The first segment's parameter interval starts
    at 1, so that it alone contributes to the computed areas and the
    candidate that keeps it (situation 1) is the larger one at every curl. *)
Definition curled (n : nat) : list PLine :=
  let m := Z.of_nat n in
  [hline 0 (-50) 0 0 1]
  ++ flat_map (fun k => curl (Z.of_nat k)) (seq 0 n)
  ++ [ hline m (-2 * m) 20 (-2 * m) 0;
       hline 20 (-2 * m) 20 (-50) 0;
       hline 20 (-50) 0 (-50) 0 ].

(** * Further functions of the same modules *)

Section Resolver.

Context {K : Kernel}.

(** *** [CMRP_Daylight.find_from_room] *)
Fixpoint find_from_room (window : Window) (room_boundaries : list (list Curve))
  : outcome OrientationResult :=
  match room_boundaries with
  | [] => Ret (None, None)
  | room_boundary :: rest =>
    r <- get_correct_facing_orientation window room_boundary ;;
    match fst r with
    | Some _ => Ret r
    | None => find_from_room window rest
    end
  end.

(** A host whose lines have the end points they were made from. *)
Definition keeps_end_points : Prop :=
  forall p q c,
    CreateBound p q = Some c -> GetEndPoint c 0 = p /\ GetEndPoint c 1 = q.

(** Every segment of the loop ends where the cyclically next one starts. *)
Definition closed_loop (curve_loop : list Curve) : Prop :=
  forall i curve next,
    nth_error curve_loop i = Some curve ->
    nth_error curve_loop (cyclic_next (length curve_loop) i) = Some next ->
    GetEndPoint curve 1 = GetEndPoint next 0.

(** The pairs the scan of [remove_single_imperfection_from_boundary] tests:
    [j >= i + 2], except the pair of the first and the last segment. *)
Definition tested_pair (n i j : nat) : Prop :=
  i + 2 <= j /\ ~ (i = 0 /\ j = n - 1).

Definition lex_before (i j i' j' : nat) : Prop :=
  i < i' \/ (i = i' /\ j < j').

(** What one curve adds to the sum of [calculate_surface_area_of_boundary]. *)
Definition contribution (curve : Curve) : Q :=
  if IsBound curve
  then (Length curve * GetEndParameter curve 0 * GetEndParameter curve 1)%Q
  else 0%Q.

(** The test of the scan on one pair. *)
Definition overlapping (ci cj : Curve) : bool := is_Overlap (fst (Intersect ci cj)).

(** *** [CMRP_FreeHeight.execute_ray_trace]

    [reference_intersector point direction] is [FindNearest]: [None] when
    there is no reference, [Some None] when reading the reference's global
    point raises (the [except: pass]), [Some (Some z)] for a hit at
    elevation [z].  The warnings are not modelled. *)
Definition execute_ray_trace
    (reference_intersector : QXYZ -> QXYZ -> option (option Q))
    (location_point : QXYZ) : Q :=
  let raytrace_distance_up :=
    match reference_intersector location_point (mkXYZ 0%Q 0%Q 1%Q) with
    | Some (Some nearest_reference_z) =>
      Qabs (nearest_reference_z - Zof location_point)%Q
    | Some None => 0%Q
    | None => units_to_internal 20000
    end in
  let '(raytrace_distance_up, raytrace_distance_down) :=
    match reference_intersector location_point (mkXYZ 0%Q 0%Q (-1)%Q) with
    | Some (Some nearest_reference_z) =>
      (raytrace_distance_up, Qabs (Zof location_point - nearest_reference_z)%Q)
    | Some None => (raytrace_distance_up, 0%Q)
    | None => (units_to_internal 1000, 0%Q)
    end in
  (raytrace_distance_up + raytrace_distance_down)%Q.

(** *** [CMRPCalculations.get_boundary_from_solid]
    on the faces of the solid, all taken to be planar *)
Record Face : Type := {
  FaceNormal : QXYZ;
  GetEdgesAsCurveLoops : list (list Curve)
}.

Definition tolerance : Q := 1 # 1000.

Definition faces_up (face : Face) : bool :=
  let normal := FaceNormal face in
  Qgtb tolerance (Qabs (Xof normal))
  && Qgtb tolerance (Qabs (Yof normal))
  && Qgtb tolerance (Qabs (Zof normal - 1)%Q).

Fixpoint get_boundary_from_solid (faces : list Face) : option (list (list Curve)) :=
  match faces with
  | [] => None
  | face :: rest =>
    if faces_up face
    then Some (GetEdgesAsCurveLoops face)
    else get_boundary_from_solid rest
  end.

End Resolver.

(** *** [CMRP.get_room_of_window]

    [FromRoom phase] is [window.FromRoom[phase]]: [None] when the lookup
    raises, [Some room] otherwise, where [room] may itself be [None]. *)
Definition get_room_of_window {Phase Room : Type}
    (FromRoom : Phase -> option (option Room)) (phases : list Phase) : option Room :=
  fold_left
    (fun room phase =>
       match FromRoom phase with
       | Some found => found
       | None => room
       end)
    phases None.

(** *** [CMRPSettings.SettingsList] *)
Definition SettingsList : Type := list Settings.

Definition name_eqb (a b : option string) : bool :=
  match a, b with
  | None, None => true
  | Some x, Some y => String.eqb x y
  | _, _ => false
  end.

(** The [for ... enumerate ... pop(index); break] of [add_settings]. *)
Fixpoint pop_first (name : option string) (l : SettingsList) : SettingsList :=
  match l with
  | [] => []
  | settings :: rest =>
    if name_eqb (project_name settings) name
    then rest
    else settings :: pop_first name rest
  end.

Definition add_settings (l : SettingsList) (new_settings : Settings) : SettingsList :=
  pop_first (project_name new_settings) l ++ [new_settings].

Fixpoint get_settings (l : SettingsList) (name : option string) : option Settings :=
  match l with
  | [] => None
  | settings :: rest =>
    if name_eqb (project_name settings) name
    then Some settings
    else get_settings rest name
  end.

Definition get_project_names (l : SettingsList) : list (option string) :=
  map project_name l.

(** *** [CMRP_WindowTypes.check_necessary_settings] *)
Definition WINDOWTYPES_TEMPLATE_NAME : string := "51_Window Types".

Definition WindowTypes_check_necessary_settings (settings : Settings) : outcome unit :=
  if is_None (model_rooms_windows settings) || eq_empty (model_rooms_windows settings)
  then Raise (MissingSettingsError
         (WINDOWTYPES_TEMPLATE_NAME
          ++ ": The model for Rooms & Windows is missing in the settings."))
  else if is_None (param_window_height settings)
          || eq_empty (param_window_height settings)
  then Raise (MissingSettingsError
         (WINDOWTYPES_TEMPLATE_NAME
          ++ ": The parameter for the height of windows is missing in the settings."))
  else if is_None (param_window_width settings)
          || eq_empty (param_window_height settings)
  then Raise (MissingSettingsError
         (WINDOWTYPES_TEMPLATE_NAME
          ++ ": The parameter for the height of windows is missing in the settings."))
  else if match selected_window_families settings with
          | None => true
          | Some families => no_keys families
          end
  then Raise (MissingSettingsError
         (WINDOWTYPES_TEMPLATE_NAME
          ++ ": No window families or type were selected, check in the settings."))
  else Ret tt.

(** *** The daylight button ([Daylight.PushButton/script.py]):
    [load_current_settings] looks the project up in the stored list, and
    [run_daylight_script] is run on what it returns.  On [None] the first
    attribute access of [check_necessary_settings] raises. *)
Definition daylight_button
    (daylight_steps : Settings -> Host -> Host * outcome unit)
    (settings_list : SettingsList) (project : option string) (h : Host)
  : Host * outcome unit :=
  match get_settings settings_list project with
  | Some settings => run_daylight_script daylight_steps settings h
  | None => (h, Raise AttributeError)
  end.

Definition present (v : option string) : Prop := missing_text v = false.

(** Squared distance of two real points. *)
Definition dist2 (p q : RXYZ) : R :=
  ((Xof p - Xof q) * (Xof p - Xof q)
   + (Yof p - Yof q) * (Yof p - Yof q)
   + (Zof p - Zof q) * (Zof p - Zof q))%R.

(** ** Further examples *)

(** A boundary with a pinch: segment 4 ends on segment 1. *)
Definition pinched : list PLine :=
  [ hline (-1) 0 0 0 0; hline 0 0 4 0 0; hline 4 0 4 2 0; hline 4 2 2 2 0;
    hline 2 2 2 0 0; hline 2 0 2 (-1) 0; hline 2 (-1) (-1) (-1) 0;
    hline (-1) (-1) (-1) 0 0 ].

(** A second 2 x 2 room; like [square_room] its lines are parametrised from
    0, so that its computed area is 0. *)
Definition second_room : list PLine :=
  [hline 5 0 7 0 0; hline 7 0 7 2 0; hline 7 2 5 2 0; hline 5 2 5 0 0].

(** The first overlapping pair of [curled 2] and of [pinched]. *)
Definition first_curl_defect : Defect (K := planar_kernel) :=
  mkDefect (K := planar_kernel) 1 (hline 0 0 2 0 0) 4 (hline 1 1 1 (-2) 0)
    [mkXYZ 1%Q 0%Q 0%Q].

Definition pinch_defect : Defect (K := planar_kernel) :=
  mkDefect (K := planar_kernel) 1 (hline 0 0 4 0 0) 4 (hline 2 2 2 0 0)
    [mkXYZ 2%Q 0%Q 0%Q].

(** A window with a room in phase 0, none in phase 1, and no phase 2. *)
Definition example_from_room (phase : nat) : option (option nat) :=
  match phase with
  | 0 => Some (Some 7)
  | 1 => Some None
  | _ => None
  end.

(** A floor at elevation 0 and a ceiling at elevation 3. *)
Definition two_slabs (point direction : QXYZ) : option (option Q) :=
  if Qgtb (Zof direction) 0%Q then Some (Some 3%Q) else Some (Some 0%Q).

Definition settings_named (name : string) : Settings := {|
  project_name := Some name;
  project_address := None;
  architect_name := None;
  model_levels_grids := Some "Levels.rvt"%string;
  model_rooms_windows := Some "Rooms.rvt"%string;
  model_shafts := None;
  param_window_height := Some "Height"%string;
  param_window_width := Some "Width"%string;
  selected_window_families := Some [("Window"%string, ["Type 1"%string])];
  mapping_file := None
|}.

(** * Properties *)

(** ** Boundary repair *)

Section BoundaryFacts.

Context {K : Kernel}.

Lemma remove_single_unfold (room_boundary : list Curve) (nr : nat) :
  remove_single_imperfection_from_boundary room_boundary nr =
  match first_overlap room_boundary with
  | None => Ret room_boundary
  | Some d =>
    if (current_index d =? 0) && (nr <? 4)
    then remove_single_imperfection_from_boundary (rotate room_boundary) (nr + 1)
    else repair_defect room_boundary d
  end.
Proof.
  remember (remove_single_imperfection_from_boundary (rotate room_boundary) (nr + 1))
    as rec eqn:Hrec.
  simp remove_single_imperfection_from_boundary.
  destruct (first_overlap room_boundary) as [d|]; simpl; [|reflexivity].
  destruct (Nat.eq_dec (current_index d) 0) as [e|e]; simpl;
    destruct (lt_dec nr 4) as [l|l]; simpl.
  - rewrite e; simpl. apply Nat.ltb_lt in l. rewrite l. symmetry; exact Hrec.
  - rewrite e; simpl. apply Nat.ltb_nlt in l. rewrite l. reflexivity.
  - apply Nat.eqb_neq in e. rewrite e. reflexivity.
  - apply Nat.eqb_neq in e. rewrite e. reflexivity.
Qed.

(** The inner loop only reports an index it has visited, and never the
    skipped pair. *)
Lemma scan_from_found (n i : nat) (ci : Curve) (rest : list Curve) :
  forall j j' cj res,
    scan_from n i j ci rest = Some (j', cj, res) ->
    j <= j' < j + length rest /\ ~ (i = 0 /\ j' = n - 1).
Proof.
  induction rest as [|c rest IH]; intros j j' cj res H; simpl in H.
  - discriminate.
  - destruct ((i =? 0) && (j =? n - 1)) eqn:Hskip.
    + apply IH in H. simpl. lia.
    + destruct (Intersect ci c) as [cmp pts].
      destruct (is_Overlap cmp).
      * injection H as <- _ _. simpl. split; [lia|].
        intros [Hi Hj]. apply andb_false_iff in Hskip.
        destruct Hskip as [Hs|Hs]; apply Nat.eqb_neq in Hs; lia.
      * apply IH in H. simpl. lia.
Qed.

Lemma scan_found (n : nat) (tail : list Curve) :
  forall i d,
    scan n i tail = Some d ->
    i <= current_index d /\
    current_index d + 2 <= intersect_index d < i + length tail /\
    ~ (current_index d = 0 /\ intersect_index d = n - 1).
Proof.
  induction tail as [|ci tail IH]; intros i d H; cbn [scan] in H.
  - discriminate.
  - destruct (scan_from n i (i + 2) ci (skipn 1 tail)) as [[[j cj] res]|] eqn:Hin.
    + injection H as <-. simpl.
      apply scan_from_found in Hin.
      assert (length (skipn 1 tail) = length tail - 1) by apply length_skipn.
      destruct tail; simpl in *; lia.
    + apply IH in H. simpl. lia.
Qed.

Lemma first_overlap_found (room_boundary : list Curve) (d : Defect) :
  first_overlap room_boundary = Some d ->
  current_index d + 2 <= intersect_index d < length room_boundary /\
  ~ (current_index d = 0 /\ intersect_index d = length room_boundary - 1).
Proof.
  intros H. apply scan_found in H. lia.
Qed.

Lemma first_overlap_short (room_boundary : list Curve) :
  length room_boundary <= 3 -> first_overlap room_boundary = None.
Proof.
  intros Hlen. destruct (first_overlap room_boundary) as [d|] eqn:H; [|reflexivity].
  apply first_overlap_found in H. lia.
Qed.

Lemma repair_defect_shorter (room_boundary r : list Curve) (d : Defect) :
  current_index d + 2 <= intersect_index d < length room_boundary ->
  ~ (current_index d = 0 /\ intersect_index d = length room_boundary - 1) ->
  repair_defect room_boundary d = Ret r ->
  length r < length room_boundary.
Proof.
  intros Hb Hskip. unfold repair_defect, Line_CreateBound, Item0.
  destruct (results d) as [|p ps]; simpl; [discriminate|].
  destruct (CreateBound (GetEndPoint (current_curve d) 0) p) as [a|]; simpl;
    [|discriminate].
  destruct (CreateBound p (GetEndPoint (intersect_curve d) 1)) as [b|]; simpl;
    [|discriminate].
  assert (H1 : length (firstn (current_index d) room_boundary ++ [a; b]
                       ++ skipn (intersect_index d + 1) room_boundary)
               < length room_boundary).
  { rewrite !length_app, length_firstn, length_skipn. simpl. lia. }
  destruct (CreateBound (GetEndPoint (intersect_curve d) 0) p) as [c|]; simpl.
  - destruct (CreateBound p (GetEndPoint (current_curve d) 1)) as [e|]; simpl.
    + destruct (Qgtb _ _); intros H; injection H as <-; [exact H1|].
      unfold slice. rewrite length_app, length_firstn, length_skipn. simpl. lia.
    + intros H; injection H as <-. exact H1.
  - intros H; injection H as <-. exact H1.
Qed.

Lemma length_rotate (room_boundary : list Curve) :
  length (rotate room_boundary) = length room_boundary.
Proof.
  unfold rotate. destruct room_boundary as [|c l]; simpl; [reflexivity|].
  rewrite length_app. simpl. lia.
Qed.


(** A pass never lengthens the loop, and a pass that keeps the length ends
    on a loop in which the scan finds nothing. *)
Lemma remove_single_length (k : nat) :
  forall room_boundary nr r,
    4 - nr = k ->
    remove_single_imperfection_from_boundary room_boundary nr = Ret r ->
    length r <= length room_boundary /\
    (length r = length room_boundary -> first_overlap r = None).
Proof.
  induction k as [|k IH]; intros b nr r Hk; rewrite remove_single_unfold;
    destruct (first_overlap b) as [d|] eqn:Hd.
  all: try (intros H; injection H as <-; split; [lia | intros _; exact Hd]).
  all: destruct (first_overlap_found b Hd) as [Hb Hskip].
  - replace (nr <? 4) with false by (symmetry; apply Nat.ltb_nlt; lia).
    rewrite andb_false_r. intros H.
    apply repair_defect_shorter in H; [lia | assumption | assumption].
  - destruct ((current_index d =? 0) && (nr <? 4)); intros H.
    + apply IH in H; [|lia]. rewrite length_rotate in H. exact H.
    + apply repair_defect_shorter in H; [lia | assumption | assumption].
Qed.

Lemma remove_single_simple (room_boundary : list Curve) (nr : nat) :
  first_overlap room_boundary = None ->
  remove_single_imperfection_from_boundary room_boundary nr = Ret room_boundary.
Proof.
  intros H. rewrite remove_single_unfold, H. reflexivity.
Qed.

Lemma loop_simple (n : nat) (room_boundary : list Curve) :
  first_overlap room_boundary = None ->
  remove_imperfections_loop n room_boundary = Ret room_boundary.
Proof.
  intros H. destruct n as [|n]; simpl; [reflexivity|].
  rewrite remove_single_simple by exact H. simpl.
  rewrite Nat.eqb_refl. reflexivity.
Qed.

Lemma loop_result_simple (n : nat) :
  forall room_boundary r,
    length room_boundary <= n + 3 ->
    remove_imperfections_loop n room_boundary = Ret r ->
    first_overlap r = None.
Proof.
  induction n as [|n IH]; intros b r Hlen; simpl.
  - intros H; injection H as <-. apply first_overlap_short. lia.
  - destruct (remove_single_imperfection_from_boundary b 0) as [nb|e] eqn:Hs;
      simpl; [|discriminate].
    eapply remove_single_length in Hs; [|reflexivity].
    destruct Hs as [Hle Hsame].
    destruct (length nb =? length b) eqn:Heq.
    + intros H; injection H as <-. apply Hsame. apply Nat.eqb_eq. exact Heq.
    + apply Nat.eqb_neq in Heq. apply IH. lia.
Qed.

(** A repair that ends on a loop with a defect left has used all its
    passes, and each of them shortened the loop. *)
Lemma loop_settled_or_capped (n : nat) :
  forall room_boundary r,
    remove_imperfections_loop n room_boundary = Ret r ->
    first_overlap r = None \/
    (first_overlap room_boundary <> None /\ length r + n <= length room_boundary).
Proof.
  induction n as [|n IH]; intros b r; simpl.
  - intros H; injection H as <-.
    destruct (first_overlap b) eqn:Hb; [right | left; reflexivity].
    split; [congruence | lia].
  - destruct (remove_single_imperfection_from_boundary b 0) as [nb|e] eqn:Hs;
      simpl; [|discriminate].
    pose proof Hs as Hlen.
    eapply remove_single_length in Hlen; [|reflexivity].
    destruct Hlen as [Hle Hsame].
    destruct (length nb =? length b) eqn:Heq.
    + intros H; injection H as <-. left. apply Hsame. apply Nat.eqb_eq. exact Heq.
    + apply Nat.eqb_neq in Heq. intros H. apply IH in H.
      destruct H as [H|[_ H]]; [left; exact H | right].
      split; [|lia].
      intros Hnone. rewrite remove_single_simple in Hs by exact Hnone.
      injection Hs as <-. congruence.
Qed.

(** C5 (amended).  When [repair] returns a loop [r] in which the scan finds no
    overlapping pair, and in particular whenever the input has at most
    [max_iterations + 3] segments, repairing [r] again returns [r] itself:
    the same segments, hence the same count and the same area. *)
Theorem repair_idempotent_when_settled (room_boundary r : list Curve)
    (Hrepair : remove_imperfections_from_boundary room_boundary = Ret r)
    (Hsettled : length room_boundary <= max_iterations + 3
                \/ first_overlap r = None) :
  remove_imperfections_from_boundary r = Ret r.
Proof.
  apply loop_simple.
  destruct Hsettled as [Hlen|Hnone]; [|exact Hnone].
  eapply loop_result_simple; [exact Hlen | exact Hrepair].
Qed.

Lemma iter_rotate_S (n : nat) (b : list Curve) :
  Nat.iter n rotate (rotate b) = Nat.iter (S n) rotate b.
Proof.
  induction n as [|n IH]; simpl; [reflexivity|]. rewrite IH. reflexivity.
Qed.

Lemma remove_single_rotations (k : nat) :
  forall room_boundary nr,
    nr + k = 4 ->
    exists n,
      n <= k /\
      (forall m, m < n ->
         exists d, first_overlap (Nat.iter m rotate room_boundary) = Some d
                   /\ current_index d = 0) /\
      (n = k \/
       forall d, first_overlap (Nat.iter n rotate room_boundary) = Some d ->
                 current_index d <> 0) /\
      remove_single_imperfection_from_boundary room_boundary nr
      = settle (Nat.iter n rotate room_boundary).
Proof.
  induction k as [|k IH]; intros b nr Hk.
  - exists 0. split; [lia|]. split; [intros m Hm; lia|]. split; [left; reflexivity|].
    rewrite remove_single_unfold. unfold settle. simpl.
    destruct (first_overlap b) as [d|]; [|reflexivity].
    replace (nr <? 4) with false by (symmetry; apply Nat.ltb_nlt; lia).
    rewrite andb_false_r. reflexivity.
  - rewrite remove_single_unfold.
    destruct (first_overlap b) as [d|] eqn:Hd.
    + destruct (current_index d =? 0) eqn:Hi; simpl.
      * replace (nr <? 4) with true by (symmetry; apply Nat.ltb_lt; lia).
        destruct (IH (rotate b) (nr + 1)) as [n [Hn [Hrot [Hexit Hres]]]]; [lia|].
        exists (S n). split; [lia|]. split; [|split].
        -- intros [|m] Hm.
           ++ exists d. split; [exact Hd | apply Nat.eqb_eq; exact Hi].
           ++ rewrite <- iter_rotate_S. apply Hrot. lia.
        -- destruct Hexit as [->|Hexit]; [left; reflexivity|right].
           rewrite <- iter_rotate_S. exact Hexit.
        -- rewrite <- iter_rotate_S. exact Hres.
      * exists 0. split; [lia|]. split; [intros m Hm; lia|]. split.
        -- right. simpl. intros d' Hd'. rewrite Hd in Hd'. injection Hd' as <-.
           apply Nat.eqb_neq. exact Hi.
        -- unfold settle. simpl. rewrite Hd. reflexivity.
    + exists 0. split; [lia|]. split; [intros m Hm; lia|]. split.
      * right. simpl. intros d' Hd'. rewrite Hd in Hd'. discriminate.
      * unfold settle. simpl. rewrite Hd. reflexivity.
Qed.




(** *** Loop selection *)

Lemma Qgtb_lt (a b : Q) : Qgtb a b = true <-> (b < a)%Q.
Proof.
  unfold Qgtb. rewrite negb_true_iff. split.
  - intros H. apply Qnot_le_lt. intros Hle.
    apply Qle_bool_iff in Hle. congruence.
  - intros H. destruct (Qle_bool a b) eqn:E; [|reflexivity].
    apply Qle_bool_iff in E. exfalso. exact (Qlt_not_le _ _ H E).
Qed.

Lemma get_largest_single (segments : list BoundarySegment) :
  get_largest_curveloop_from_room_boundary [segments] = Some (map GetCurve segments).
Proof. reflexivity. Qed.

(** With several loops, a last loop of positive area is returned whatever
    the areas of the loops before it. *)
Lemma get_largest_last_positive (loops : list (list BoundarySegment))
    (segments : list BoundarySegment) :
  loops <> [] ->
  (0 < calculate_surface_area_of_boundary (map GetCurve segments))%Q ->
  get_largest_curveloop_from_room_boundary (loops ++ [segments])
  = Some (map GetCurve segments).
Proof.
  intros Hne Hpos.
  assert (Hfold : get_largest_curveloop_from_room_boundary (loops ++ [segments])
                  = fst (fold_left largest_loop_step (loops ++ [segments])
                                   (None, 0%Q))).
  { destruct loops as [|l [|l' loops]]; [congruence | reflexivity | reflexivity]. }
  rewrite Hfold, fold_left_app. simpl.
  assert (Hzero : forall ls acc, snd (fold_left largest_loop_step ls (acc, 0%Q)) = 0%Q).
  { induction ls as [|x ls IH]; intros acc; simpl; [reflexivity|].
    destruct (Qgtb _ 0%Q); apply IH. }
  specialize (Hzero loops None).
  destruct (fold_left largest_loop_step loops (None, 0%Q)) as [result largest].
  simpl in Hzero. subst largest. unfold largest_loop_step.
  apply Qgtb_lt in Hpos. rewrite Hpos. reflexivity.
Qed.

End BoundaryFacts.

(** ** Orientation *)

Section OrientationFacts.

Context {K : Kernel}.

Variables facing_orientation reverse_orientation : QXYZ.
Variables facing_line reverse_line : Curve.

Local Abbreviation loop :=
  (orientation_loop facing_orientation reverse_orientation
     facing_line reverse_line).

Lemma orientation_loop_miss (curve : Curve) (rest : list Curve) :
  missed_by reverse_line curve ->
  missed_by facing_line curve ->
  loop (curve :: rest) = loop rest.
Proof.
  intros [flat [Hflat Hrev]] [flat' [Hflat' Hfwd]].
  rewrite Hflat in Hflat'. injection Hflat' as <-.
  cbn [orientation_loop]. rewrite Hflat. cbn [bind].
  destruct (Intersect flat reverse_line) as [cmp res]. cbn [fst] in Hrev.
  rewrite Hrev.
  destruct (Intersect flat facing_line) as [cmp' res']. cbn [fst] in Hfwd.
  rewrite Hfwd. reflexivity.
Qed.

Lemma orientation_loop_skip (before rest : list Curve) :
  (forall c, In c before -> missed_by reverse_line c /\ missed_by facing_line c) ->
  loop (before ++ rest) = loop rest.
Proof.
  induction before as [|c before IH]; intros Hmiss; cbn [app]; [reflexivity|].
  rewrite orientation_loop_miss by (apply Hmiss; left; reflexivity).
  apply IH. intros c' Hc'. apply Hmiss. right. exact Hc'.
Qed.

Lemma orientation_loop_reverse_hit (curve : Curve) (rest : list Curve) (p : QXYZ) :
  hit_by reverse_line curve p ->
  loop (curve :: rest) = Ret (Some reverse_orientation, Some (reported p curve)).
Proof.
  intros [flat [ps [Hflat Hrev]]].
  cbn [orientation_loop]. rewrite Hflat. cbn [bind]. rewrite Hrev. reflexivity.
Qed.

Lemma orientation_loop_forward_hit (curve : Curve) (rest : list Curve) (p : QXYZ) :
  missed_by reverse_line curve ->
  hit_by facing_line curve p ->
  loop (curve :: rest) = Ret (Some facing_orientation, Some (reported p curve)).
Proof.
  intros [flat [Hflat Hrev]] [flat' [ps [Hflat' Hfwd]]].
  rewrite Hflat in Hflat'. injection Hflat' as <-.
  cbn [orientation_loop]. rewrite Hflat. cbn [bind].
  destruct (Intersect flat reverse_line) as [cmp res]. cbn [fst] in Hrev.
  rewrite Hrev. rewrite Hfwd. reflexivity.
Qed.

End OrientationFacts.

Section ResolverFacts.

Context {K : Kernel}.

(** C2 (amended).  The boundary is walked once; on each segment the reverse
    ray is tested before the forward ray.  The first segment that either ray
    hits decides: the reverse direction if the reverse ray hits it, the
    forward direction if only the forward ray does. *)
Theorem first_hit_segment_decides (window : Window)
    (before after : list Curve) (curve : Curve)
    (facing_line reverse_line : Curve) (p : QXYZ)
    (Hfacing : test_ray (Location_Point window) (FacingOrientation window)
               = Ret facing_line)
    (Hreverse : test_ray (Location_Point window) (reverse_of window)
                = Ret reverse_line)
    (Hbefore : forall c, In c before ->
                 missed_by reverse_line c /\ missed_by facing_line c) :
  (hit_by reverse_line curve p ->
   get_correct_facing_orientation window (before ++ curve :: after)
   = Ret (Some (reverse_of window), Some (reported p curve)))
  /\
  (missed_by reverse_line curve ->
   hit_by facing_line curve p ->
   get_correct_facing_orientation window (before ++ curve :: after)
   = Ret (Some (FacingOrientation window), Some (reported p curve))).
Proof.
  unfold get_correct_facing_orientation. fold (reverse_of window).
  rewrite Hfacing, Hreverse. simpl.
  rewrite orientation_loop_skip by exact Hbefore.
  split.
  - apply orientation_loop_reverse_hit.
  - apply orientation_loop_forward_hit.
Qed.

(** C9.  When both test rays are built and neither overlaps any flattened
    segment of the boundary, the result is the sentinel [(None, None)]. *)
Theorem no_hit_gives_sentinel (window : Window) (room_boundary : list Curve)
    (facing_line reverse_line : Curve)
    (Hfacing : test_ray (Location_Point window) (FacingOrientation window)
               = Ret facing_line)
    (Hreverse : test_ray (Location_Point window) (reverse_of window)
                = Ret reverse_line)
    (Hmiss : forall c, In c room_boundary ->
               missed_by reverse_line c /\ missed_by facing_line c) :
  get_correct_facing_orientation window room_boundary = Ret (None, None).
Proof.
  unfold get_correct_facing_orientation. fold (reverse_of window).
  rewrite Hfacing, Hreverse. simpl.
  rewrite <- (app_nil_r room_boundary).
  rewrite orientation_loop_skip by exact Hmiss.
  reflexivity.
Qed.

End ResolverFacts.

(** ** Shaft expansion *)

Section ShaftFacts.

Context {K : Kernel}.

Lemma item_of_nat (vectors : list QXYZ) (k : nat) :
  item vectors (Z.of_nat k) = nth_error vectors k.
Proof. unfold item. rewrite Nat2Z.id. reflexivity. Qed.

Lemma item_prev (vectors : list QXYZ) (k : nat) :
  vectors <> [] ->
  item vectors ((Z.of_nat k - 1) mod Z.of_nat (length vectors))
  = nth_error vectors (cyclic_prev (length vectors) k).
Proof.
  intros Hne. unfold item, cyclic_prev. f_equal.
  assert (Hn : 0 < length vectors) by (destruct vectors; simpl; [congruence | lia]).
  rewrite <- (Z_mod_plus_full _ 1).
  replace (Z.of_nat k - 1 + 1 * Z.of_nat (length vectors))%Z
    with (Z.of_nat (k + length vectors - 1)) by lia.
  rewrite <- Nat2Z.inj_mod. apply Nat2Z.id.
Qed.

Lemma item_next (vectors : list QXYZ) (k : nat) :
  item vectors ((Z.of_nat k + 1) mod Z.of_nat (length vectors))
  = nth_error vectors (cyclic_next (length vectors) k).
Proof.
  unfold item, cyclic_next. f_equal.
  replace (Z.of_nat k + 1)%Z with (Z.of_nat (k + 1)) by lia.
  rewrite <- Nat2Z.inj_mod. apply Nat2Z.id.
Qed.

Lemma veq_start (p v v_prev : QXYZ) :
  veq (vadd (vadd p v) v_prev) (vadd p (vadd v_prev v)).
Proof. unfold veq, vadd; simpl. repeat split; ring. Qed.

Lemma veq_end (p v v_next : QXYZ) :
  veq (vadd (vadd p v) v_next) (vadd p (vadd v v_next)).
Proof. unfold veq, vadd; simpl. repeat split; ring. Qed.

(** The loop of one [try], from any running index. *)
Lemma offset_lines_from (vectors : list QXYZ) (curves : list Curve) :
  forall (index : nat) (lines : list Curve),
    offset_lines vectors (Z.of_nat index) curves = Some lines ->
    length lines = length curves /\
    forall k curve line,
      nth_error curves k = Some curve ->
      nth_error lines k = Some line ->
      exists v_prev v v_next,
        nth_error vectors (cyclic_prev (length vectors) (index + k)) = Some v_prev /\
        nth_error vectors (index + k) = Some v /\
        nth_error vectors (cyclic_next (length vectors) (index + k)) = Some v_next /\
        CreateBound (vadd (vadd (GetEndPoint curve 0) v) v_prev)
                    (vadd (vadd (GetEndPoint curve 1) v) v_next) = Some line.
Proof.
  induction curves as [|c curves IH]; intros index lines H; cbn [offset_lines] in H.
  - injection H as <-. split; [reflexivity|]. intros [|k] curve line Hc; discriminate.
  - cbv zeta in H. rewrite item_of_nat in H.
    destruct (nth_error vectors index) as [v|] eqn:Hv; [|discriminate].
    assert (Hne : vectors <> []) by (intros ->; destruct index; discriminate).
    rewrite item_prev, item_next in H by exact Hne.
    destruct (nth_error vectors (cyclic_prev _ index)) as [vp|] eqn:Hvp; [|discriminate].
    destruct (nth_error vectors (cyclic_next _ index)) as [vn|] eqn:Hvn; [|discriminate].
    destruct (CreateBound _ _) as [line0|] eqn:Hline; [|discriminate].
    replace (Z.of_nat index + 1)%Z with (Z.of_nat (S index)) in H by lia.
    destruct (offset_lines vectors (Z.of_nat (S index)) curves) as [ls|] eqn:Hrest;
      [|discriminate].
    injection H as <-. destruct (IH _ _ Hrest) as [Hlen Hnth].
    split; [simpl; lia|].
    intros [|k] curve line Hc Hl; simpl in Hc, Hl.
    + injection Hc as <-. injection Hl as <-. rewrite Nat.add_0_r.
      exists vp, v, vn. repeat split; assumption.
    + replace (index + S k)%nat with (S index + k)%nat by lia.
      exact (Hnth k curve line Hc Hl).
Qed.

Lemma offset_lines_displaced (vectors : list QXYZ) (curve_loop lines : list Curve) :
  offset_lines vectors 0 curve_loop = Some lines ->
  joins_displaced_vertices vectors curve_loop lines.
Proof.
  intros H. change 0%Z with (Z.of_nat 0) in H.
  apply offset_lines_from in H. destruct H as [Hlen Hnth].
  split; [exact Hlen|].
  intros i curve line Hc Hl.
  destruct (Hnth i curve line Hc Hl) as [vp [v [vn [Hvp [Hv [Hvn Hline]]]]]].
  simpl in Hvp, Hv, Hvn.
  exists vp, v, vn, (vadd (vadd (GetEndPoint curve 0) v) vp),
         (vadd (vadd (GetEndPoint curve 1) v) vn).
  repeat split; try assumption; try apply veq_start; apply veq_end.
Qed.

Lemma try_expand_extrudes (vectors : list QXYZ) (curve_loop : list Curve)
    (shaft_height : Q) (solid : Solid) :
  try_expand vectors curve_loop shaft_height = Some solid ->
  exists lines,
    offset_lines vectors 0 curve_loop = Some lines /\
    joins_displaced_vertices vectors curve_loop lines /\
    CreateExtrusionGeometry [lines] (mkXYZ 0%Q 0%Q 1%Q) shaft_height = Some solid.
Proof.
  unfold try_expand. intros H.
  destruct (offset_lines vectors 0 curve_loop) as [lines|] eqn:Hl; [|discriminate].
  exists lines. split; [reflexivity|]. split; [|exact H].
  apply offset_lines_displaced. exact Hl.
Qed.

Lemma Qgtb_false_le (a b : Q) : Qgtb a b = false -> (a <= b)%Q.
Proof.
  unfold Qgtb. rewrite negb_false_iff. apply Qle_bool_iff.
Qed.

Lemma nth_error_normal_vectors (curve_loop : list Curve) (offset_distance : Q)
    (i : nat) (curve : Curve) :
  nth_error curve_loop i = Some curve ->
  nth_error (normal_vectors curve_loop offset_distance) i
  = Some (vscale (CrossProduct
                    (Normalize (vsub (GetEndPoint curve 0) (GetEndPoint curve 1)))
                    BasisZ) offset_distance)
  /\
  nth_error (reverse_vectors curve_loop offset_distance) i
  = Some (vscale (CrossProduct
                    (Normalize (vsub (GetEndPoint curve 1) (GetEndPoint curve 0)))
                    BasisZ) offset_distance).
Proof.
  intros H. unfold normal_vectors, reverse_vectors.
  rewrite !nth_error_map, H. split; reflexivity.
Qed.

(** C4.  The two vector lists hold, per segment, [direction x Z * distance]
    for the direction from end to start and for its mirror.  A candidate
    that builds is the extrusion to [shaft_height] of lines that join the
    segment ends, each moved by the sum of the vectors of the two segments
    meeting there.  When both build the result is one of them and its volume
    is at least the other's; when exactly one builds it is the result. *)
Theorem expand_boundary_keeps_larger_candidate (curve_loop : list Curve)
    (offset_distance shaft_height : Q) :
  let vectors := normal_vectors curve_loop offset_distance in
  let mirrored_vectors := reverse_vectors curve_loop offset_distance in
  let normal := try_expand vectors curve_loop shaft_height in
  let mirrored := try_expand mirrored_vectors curve_loop shaft_height in
  let up := mkXYZ 0%Q 0%Q 1%Q in
  (forall i curve,
     nth_error curve_loop i = Some curve ->
     nth_error vectors i
     = Some (vscale (CrossProduct
                       (Normalize (vsub (GetEndPoint curve 0) (GetEndPoint curve 1)))
                       BasisZ) offset_distance)
     /\
     nth_error mirrored_vectors i
     = Some (vscale (CrossProduct
                       (Normalize (vsub (GetEndPoint curve 1) (GetEndPoint curve 0)))
                       BasisZ) offset_distance))
  /\
  (forall solid,
     normal = Some solid ->
     exists lines,
       joins_displaced_vertices vectors curve_loop lines /\
       CreateExtrusionGeometry [lines] up shaft_height = Some solid)
  /\
  (forall solid,
     mirrored = Some solid ->
     exists lines,
       joins_displaced_vertices mirrored_vectors curve_loop lines /\
       CreateExtrusionGeometry [lines] up shaft_height = Some solid)
  /\
  (forall e r,
     normal = Some e ->
     mirrored = Some r ->
     exists s,
       expand_boundary curve_loop offset_distance shaft_height = Some s /\
       (s = e \/ s = r) /\
       (Volume e <= Volume s)%Q /\ (Volume r <= Volume s)%Q)
  /\
  (forall e,
     normal = Some e ->
     mirrored = None ->
     expand_boundary curve_loop offset_distance shaft_height = Some e)
  /\
  (forall r,
     normal = None ->
     mirrored = Some r ->
     expand_boundary curve_loop offset_distance shaft_height = Some r).
Proof.
  intros vectors mirrored_vectors normal mirrored up.
  split; [|split; [|split; [|split; [|split]]]].
  - intros i curve H. apply nth_error_normal_vectors. exact H.
  - intros solid H. apply try_expand_extrudes in H.
    destruct H as [lines [_ [Hd He]]]. exists lines. split; assumption.
  - intros solid H. apply try_expand_extrudes in H.
    destruct H as [lines [_ [Hd He]]]. exists lines. split; assumption.
  - intros e r He Hr. unfold expand_boundary.
    fold vectors mirrored_vectors. fold normal mirrored. rewrite He, Hr.
    destruct (Qgtb (Volume e) (Volume r)) eqn:Hcmp.
    + exists e. split; [reflexivity|]. split; [left; reflexivity|].
      split; [apply Qle_refl|]. apply Qlt_le_weak, Qgtb_lt. exact Hcmp.
    + exists r. split; [reflexivity|]. split; [right; reflexivity|].
      split; [apply Qgtb_false_le; exact Hcmp | apply Qle_refl].
  - intros e He Hr. unfold expand_boundary.
    fold vectors mirrored_vectors. fold normal mirrored. rewrite He, Hr. reflexivity.
  - intros r He Hr. unfold expand_boundary.
    fold vectors mirrored_vectors. fold normal mirrored. rewrite He, Hr. reflexivity.
Qed.

(** C10.  When neither candidate builds, [expand_boundary] returns [None]. *)
Theorem expand_boundary_none_when_both_fail (curve_loop : list Curve)
    (offset_distance shaft_height : Q)
    (Hnormal : try_expand (normal_vectors curve_loop offset_distance)
                 curve_loop shaft_height = None)
    (Hmirrored : try_expand (reverse_vectors curve_loop offset_distance)
                   curve_loop shaft_height = None) :
  expand_boundary curve_loop offset_distance shaft_height = None.
Proof.
  unfold expand_boundary. rewrite Hnormal, Hmirrored. reflexivity.
Qed.

End ShaftFacts.

(** ** The zone constructor *)

Lemma get_size_resolved (window : WindowElement) (ph pw : string) (height width : R) :
  resolved_value window ph = Some height ->
  resolved_value window pw = Some width ->
  height <> 0%R ->
  width <> 0%R ->
  get_size_from_window window ph pw = (Some height, Some width).
Proof.
  unfold resolved_value, get_size_from_window. intros Hh Hw Hh0 Hw0.
  destruct (LookupParameter window ph) as [p|];
    [|destruct (Symbol_LookupParameter (Symbol window) ph) as [p|]; [|discriminate]];
    (destruct (LookupParameter window pw) as [q|];
     [|destruct (Symbol_LookupParameter (Symbol window) pw) as [q|]; [|discriminate]]);
    injection Hh as Hh; injection Hw as Hw; rewrite Hh, Hw;
    destruct (Req_dec_T height 0); try contradiction;
    destruct (Req_dec_T width 0); try contradiction; reflexivity.
Qed.

Lemma get_size_zero (window : WindowElement) (ph pw : string) :
  resolved_value window ph = Some 0%R \/ resolved_value window pw = Some 0%R ->
  get_size_from_window window ph pw = (None, None).
Proof.
  unfold resolved_value, get_size_from_window. intros H.
  destruct (LookupParameter window ph) as [p|];
    [|destruct (Symbol_LookupParameter (Symbol window) ph) as [p|]];
    (destruct (LookupParameter window pw) as [q|];
     [|destruct (Symbol_LookupParameter (Symbol window) pw) as [q|]]);
    try reflexivity;
    try (destruct H as [H|H]; discriminate H);
    (destruct (Req_dec_T (AsDouble p) 0); [reflexivity|];
     destruct (Req_dec_T (AsDouble q) 0); [reflexivity|];
     destruct H as [H|H]; injection H as H; contradiction).
Qed.

Lemma math_acos_in_range (y : R) :
  (-1 <= y <= 1)%R -> math_acos y = Ret (acos y).
Proof.
  intros [Hlo Hhi]. unfold math_acos.
  destruct (Rle_dec (-1) y); [|contradiction].
  destruct (Rle_dec y 1); [reflexivity | contradiction].
Qed.

(** For a horizontal unit vector the angle turns the trapezoid's axis, built
    along [-Y], onto the facing orientation. *)
Lemma code_angle_cos_sin (facing : RXYZ) :
  (Xof facing * Xof facing + Yof facing * Yof facing = 1)%R ->
  cos (code_angle facing) = (- Yof facing)%R /\ sin (code_angle facing) = Xof facing.
Proof.
  intros Hunit. set (x := Xof facing) in *. set (y := Yof facing) in *.
  assert (Hy : (-1 <= y <= 1)%R) by (split; nra).
  assert (Hsin : sin (acos y) = Rabs x).
  { rewrite sin_acos by exact Hy. rewrite <- sqrt_Rsqr_abs. f_equal.
    unfold Rsqr. lra. }
  unfold code_angle, copysign1. fold x y.
  destruct (Rlt_dec x 0) as [Hneg|Hpos].
  - replace (- -1 * acos y + PI)%R with (acos y + PI)%R by lra.
    rewrite neg_cos, neg_sin, cos_acos, Hsin by exact Hy.
    rewrite Rabs_left by exact Hneg. split; lra.
  - replace (- (1) * acos y + PI)%R with (- acos y + PI)%R by lra.
    rewrite neg_cos, neg_sin, cos_neg, sin_neg, cos_acos, Hsin by exact Hy.
    rewrite Rabs_right by lra. split; lra.
Qed.

(** In terms of the facing orientation [f] and of [u], [f] turned a quarter
    turn to the left: the near edge runs from [anchor - (w/2) u] to
    [anchor + (w/2) u] and the far edge lies [h] further along [f]. *)
Lemma placed_along_facing (facing anchor : RXYZ) (width height : R) :
  (Xof facing * Xof facing + Yof facing * Yof facing = 1)%R ->
  let f := mkXYZ (Xof facing) (Yof facing) 0%R in
  let u := mkXYZ (- Yof facing)%R (Xof facing) 0%R in
  placed (code_angle facing) anchor (trapezoid_at_origin width height)
  = [ radd (rscale (- (width / 2)) u) anchor;
      radd (rscale (width / 2) u) anchor;
      radd (radd (rscale (height + width / 2) u) (rscale height f)) anchor;
      radd (radd (rscale (- (height + width / 2)) u) (rscale height f)) anchor ].
Proof.
  intros Hunit f u. destruct (code_angle_cos_sin facing Hunit) as [Hcos Hsin].
  unfold placed, trapezoid_at_origin, rotate_z, radd, rscale. cbn [map Xof Yof Zof].
  rewrite Hcos, Hsin. unfold f, u. cbn [Xof Yof Zof].
  repeat (f_equal; try lra).
Qed.

Section ZoneFacts.

Variable RLine : Type.
Variable CreateBoundR : RXYZ -> RXYZ -> option RLine.

Lemma calculate_zone_corners (window : WindowElement)
    (facing_orientation intersection_point : RXYZ)
    (param_window_height param_window_width : string) (height width : R)
    (Hheight : resolved_value window param_window_height = Some height)
    (Hwidth : resolved_value window param_window_width = Some width)
    (Hheight_nonzero : height <> 0%R)
    (Hwidth_nonzero : width <> 0%R)
    (Hfacing : (-1 <= Yof facing_orientation <= 1)%R) :
  calculate_full_daylight_zone CreateBoundR window facing_orientation
    intersection_point param_window_height param_window_width
  = loop_of_corners CreateBoundR
      (placed (code_angle facing_orientation)
              (resolved_anchor window intersection_point)
              (trapezoid_at_origin width height)).
Proof.
  unfold calculate_full_daylight_zone.
  rewrite (get_size_resolved _ _ _ Hheight Hwidth Hheight_nonzero Hwidth_nonzero).
  rewrite math_acos_in_range by exact Hfacing.
  cbn [bind]. cbv zeta.
  unfold loop_of_corners, placed, trapezoid_at_origin, loop_through. cbn [map].
  fold (code_angle facing_orientation).
  fold (resolved_anchor window intersection_point).
  replace (- width / 2)%R with (- (width / 2))%R by lra.
  replace (- height - width / 2)%R with (- (height + width / 2))%R by lra.
  reflexivity.
Qed.


(** C8.  When the height or the width parameter resolves to zero the zone
    constructor returns [None]. *)
Theorem zero_size_gives_no_zone (window : WindowElement)
    (facing_orientation intersection_point : RXYZ)
    (param_window_height param_window_width : string)
    (Hzero : resolved_value window param_window_height = Some 0%R
             \/ resolved_value window param_window_width = Some 0%R) :
  calculate_full_daylight_zone CreateBoundR window facing_orientation
    intersection_point param_window_height param_window_width
  = Ret None.
Proof.
  unfold calculate_full_daylight_zone.
  rewrite (get_size_zero _ _ _ Hzero). reflexivity.
Qed.

End ZoneFacts.

(** ** Settings and the entry point *)

Section EntryPointFacts.

Variable daylight_steps : Settings -> Host -> Host * outcome unit.

(** The fields whose check is written out in full, and a window-width name
    that is [None], are caught before anything is deleted. *)
Lemma missing_setting_stops_script (settings : Settings) (h : Host) :
  missing_text (model_levels_grids settings) = true
  \/ missing_text (model_rooms_windows settings) = true
  \/ missing_text (param_window_height settings) = true
  \/ param_window_width settings = None
  \/ selected_window_families settings = None
  \/ (exists families, selected_window_families settings = Some families
                       /\ no_keys families = true) ->
  exists message,
    check_necessary_settings settings = Raise (MissingSettingsError message)
    /\ run_daylight_script daylight_steps settings h
       = (logger Critical message h, Ret tt).
Proof.
  intros H.
  assert (Hraise : exists message,
             check_necessary_settings settings = Raise (MissingSettingsError message)).
  { unfold check_necessary_settings.
    assert (Hm : forall v, is_None v || eq_empty v = missing_text v)
      by (intros [v|]; reflexivity).
    rewrite !Hm.
    destruct (missing_text (model_levels_grids settings)); [eauto|].
    destruct (missing_text (model_rooms_windows settings)); [eauto|].
    destruct (missing_text (param_window_height settings)) eqn:Hh; [eauto|].
    assert (He : eq_empty (param_window_height settings) = false).
    { destruct (param_window_height settings); [exact Hh | reflexivity]. }
    rewrite He, orb_false_r.
    destruct (param_window_width settings) as [w|]; simpl; [|eauto].
    destruct (selected_window_families settings) as [families|]; [|eauto].
    destruct (no_keys families) eqn:Hnk; [eauto|].
    destruct H as [H|[H|[H|[H|[H|[f [Hf Hk]]]]]]]; try discriminate.
    injection Hf as Hf. subst f. congruence. }
  destruct Hraise as [message Hraise]. exists message. split; [exact Hraise|].
  unfold run_daylight_script, daylight_body. rewrite Hraise. reflexivity.
Qed.

End EntryPointFacts.

(** C3.  An empty window-width parameter name is not caught: the fourth
    test reads [param_window_height] where it means [param_window_width].
    The check passes, the old area plans are deleted and the steps run. *)
Theorem empty_width_name_passes_check :
  required_setting_missing settings_without_width = true
  /\ check_necessary_settings settings_without_width = Ret tt
  /\ (forall daylight_steps h,
        daylight_body daylight_steps settings_without_width h
        = match daylight_steps settings_without_width
                  (delete_area_plans DAYLIGHT_TEMPLATE_NAME h) with
          | (h', Raise e) => (h', Raise e)
          | (h', Ret _) =>
            (logger Success
               (DAYLIGHT_TEMPLATE_NAME
                ++ ": Script completed without critical errors.") h',
             Ret tt)
          end)
  /\ run_daylight_script no_steps settings_without_width empty_host
     = (mkHost [DeleteAreaPlans DAYLIGHT_TEMPLATE_NAME]
               [(Success,
                 (DAYLIGHT_TEMPLATE_NAME
                  ++ ": Script completed without critical errors.")%string)],
        Ret tt).
Proof.
  split; [reflexivity|]. split; [reflexivity|]. split; [|reflexivity].
  intros daylight_steps h. reflexivity.
Qed.

(** ** The properties on the planar kernel *)

(** C1.  With two loops the last loop of positive computed area is returned
    although the first has the larger area: [largest_area] stays 0. *)
Theorem largest_loop_not_selected :
  get_largest_curveloop_from_room_boundary
    [map segment_of big_loop; map segment_of small_loop]
  = Some small_loop
  /\ (calculate_surface_area_of_boundary small_loop
      < calculate_surface_area_of_boundary big_loop)%Q.
Proof.
  split; vm_compute; reflexivity.
Qed.

(** Counterexample to C2 as stated: in the 2 x 2 room the reverse ray of the
    window hits the top edge, yet the forward direction is returned, because
    the bottom edge comes first and the forward ray hits it. *)
Lemma forward_returned_although_reverse_hits :
  exists reverse_line curve p,
    test_ray (Location_Point window_facing_down) (reverse_of window_facing_down)
    = Ret reverse_line
    /\ In curve square_room
    /\ hit_by reverse_line curve p
    /\ get_correct_facing_orientation window_facing_down square_room
       = Ret (Some (FacingOrientation window_facing_down),
              Some (mkXYZ 1%Q 0%Q 0%Q))
    /\ FacingOrientation window_facing_down <> reverse_of window_facing_down.
Proof.
  eexists. exists (hline 2 2 0 2 0). eexists.
  split; [vm_compute; reflexivity|].
  split; [simpl; tauto|].
  split; [eexists; eexists; split; reflexivity|].
  split; [vm_compute; reflexivity|].
  vm_compute. discriminate.
Qed.

Lemma first_hit_segment_decides_witness :
  get_correct_facing_orientation window_facing_left
    ([hline 0 0 2 0 0] ++ hline 2 0 2 2 0 :: [hline 2 2 0 2 0; hline 0 2 0 0 0])
  = Ret (Some (reverse_of window_facing_left),
         Some (reported (mkXYZ 2%Q 1%Q 0%Q) (hline 2 0 2 2 0))).
Proof.
  eapply (first_hit_segment_decides (K := planar_kernel)).
  - vm_compute; reflexivity.
  - vm_compute; reflexivity.
  - intros c [<-|[]]; split; eexists; split; reflexivity.
  - eexists; eexists; split; reflexivity.
Defined.

Lemma no_hit_gives_sentinel_witness :
  get_correct_facing_orientation window_far_away square_room = Ret (None, None).
Proof.
  eapply (no_hit_gives_sentinel (K := planar_kernel)).
  - vm_compute; reflexivity.
  - vm_compute; reflexivity.
  - intros c [<-|[<-|[<-|[<-|[]]]]];
      (split; eexists; split; reflexivity).
Defined.

(** Counterexample to C5 as stated: eleven curls need eleven passes; the
    first repair stops at its tenth pass with 28 segments and one curl left,
    the second repair removes it. *)
Lemma repair_twice_differs_at_cap :
  exists r r',
    remove_imperfections_from_boundary (curled 11) = Ret r
    /\ remove_imperfections_from_boundary r = Ret r'
    /\ length r = 28 /\ length r' = 26 /\ length r' <> length r.
Proof.
  eexists. eexists.
  split; [vm_compute; reflexivity|].
  split; [vm_compute; reflexivity|].
  split; [reflexivity|]. split; [reflexivity|]. simpl. lia.
Qed.

Lemma repair_idempotent_when_settled_witness :
  exists r,
    remove_imperfections_from_boundary (curled 2) = Ret r
    /\ remove_imperfections_from_boundary r = Ret r.
Proof.
  eexists. split; [vm_compute; reflexivity|].
  apply (@repair_idempotent_when_settled planar_kernel (curled 2)).
  - vm_compute; reflexivity.
  - left. vm_compute. repeat constructor.
Defined.


Lemma expand_boundary_keeps_larger_candidate_witness :
  exists s,
    expand_boundary shaft_square 1%Q 3%Q = Some s /\ Volume s = 108%Q.
Proof.
  destruct (expand_boundary_keeps_larger_candidate (K := planar_kernel)
              shaft_square 1%Q 3%Q) as [_ [_ [_ [Hchoice _]]]].
  edestruct Hchoice as [s [Hs [[He|He] _]]];
    [vm_compute; reflexivity | vm_compute; reflexivity | |].
  - exfalso. subst s. vm_compute in Hs. discriminate Hs.
  - exists s. split; [exact Hs|]. subst s. vm_compute. reflexivity.
Defined.

Lemma expand_boundary_none_when_both_fail_witness :
  expand_boundary square_room 1%Q 0%Q = None.
Proof.
  apply (expand_boundary_none_when_both_fail (K := planar_kernel));
    vm_compute; reflexivity.
Defined.

(** ** The zone of a window that faces south *)

Lemma sign_0 : sign 0 = 0%R.
Proof.
  unfold sign. destruct (Rlt_dec 0 0) as [H|H]; [lra | reflexivity].
Qed.

Lemma acos_minus_1 : acos (-1) = PI.
Proof.
  replace (-1)%R with (Ropp 1) by lra. rewrite acos_opp, acos_1. lra.
Qed.

Lemma spec_angle_south : spec_angle south = PI.
Proof.
  unfold spec_angle, south. cbn [Xof Yof]. rewrite sign_0, acos_minus_1. lra.
Qed.

Lemma code_angle_south : code_angle south = 0%R.
Proof.
  unfold code_angle, south, copysign1. cbn [Xof Yof].
  destruct (Rlt_dec 0 0) as [H|H]; [lra|]. rewrite acos_minus_1. lra.
Qed.



Lemma zero_size_gives_no_zone_witness :
  calculate_full_daylight_zone free_line (window_of_size 0 2) south origin
    "Height" "Width"
  = Ret None.
Proof.
  apply (@zero_size_gives_no_zone _ free_line (window_of_size 0 2) south origin
           "Height" "Width").
  left. reflexivity.
Defined.

(** * Further properties *)

(** ** Boundary repair *)

Section RepairFacts.

Context {K : Kernel}.

Lemma area_sum (boundary : list Curve) :
  forall acc : Q,
    (fold_left
       (fun surface_area curve =>
          if IsBound curve
          then (surface_area
                + Length curve * GetEndParameter curve 0 * GetEndParameter curve 1)%Q
          else surface_area)
       boundary acc
     == acc + fold_right (fun c s => contribution c + s) 0 boundary)%Q.
Proof.
  induction boundary as [|c boundary IH]; intros acc; simpl.
  - ring.
  - rewrite IH. unfold contribution. destruct (IsBound c); ring.
Qed.

Lemma contributions_permutation (b b' : list Curve) :
  Permutation b b' ->
  (fold_right (fun c s => contribution c + s) 0 b
   == fold_right (fun c s => contribution c + s) 0 b')%Q.
Proof.
  induction 1; simpl.
  - reflexivity.
  - rewrite IHPermutation. reflexivity.
  - ring.
  - rewrite IHPermutation1. exact IHPermutation2.
Qed.


Lemma rotate_permutation (room_boundary : list Curve) :
  Permutation room_boundary (rotate room_boundary).
Proof.
  unfold rotate. destruct room_boundary as [|c l]; simpl; [constructor|].
  apply Permutation_cons_append.
Qed.


Lemma overlap_result (ci cj : Curve) (cmp : SetComparisonResult) (res : list QXYZ) :
  Intersect ci cj = (cmp, res) -> is_Overlap cmp = true ->
  Intersect ci cj = (Overlap, res).
Proof.
  intros H Ho. destruct cmp; try discriminate. exact H.
Qed.

(** The inner loop, on [rest = room_boundary[j:]]. *)
Lemma scan_from_some (n i : nat) (ci : Curve) (rest : list Curve) :
  forall j j' cj res,
    scan_from n i j ci rest = Some (j', cj, res) ->
    exists k,
      j' = j + k /\ nth_error rest k = Some cj /\
      Intersect ci cj = (Overlap, res) /\
      ~ (i = 0 /\ j' = n - 1) /\
      forall k' c, k' < k -> nth_error rest k' = Some c ->
        (i = 0 /\ j + k' = n - 1) \/ overlapping ci c = false.
Proof.
  induction rest as [|c rest IH]; intros j j' cj res H; cbn [scan_from] in H.
  - discriminate.
  - destruct ((i =? 0) && (j =? n - 1)) eqn:Hskip.
    + apply IH in H. destruct H as [k [Hj [Hn [Ho [Hs Hmin]]]]].
      exists (S k). split; [lia|]. split; [exact Hn|]. split; [exact Ho|].
      split; [exact Hs|]. intros [|k'] c' Hk Hc; simpl in Hc.
      * left. apply andb_true_iff in Hskip. destruct Hskip as [H1 H2].
        apply Nat.eqb_eq in H1, H2. lia.
      * destruct (Hmin k' c') as [Hl|Hr]; [lia | exact Hc | left; lia | right; exact Hr].
    + destruct (Intersect ci c) as [cmp pts] eqn:Hint.
      destruct (is_Overlap cmp) eqn:Ho.
      * injection H as <- <- <-. exists 0. split; [lia|]. split; [reflexivity|].
        split; [eapply overlap_result; eassumption|]. split.
        -- intros [Hi Hj]. apply andb_false_iff in Hskip.
           destruct Hskip as [Hs|Hs]; apply Nat.eqb_neq in Hs; lia.
        -- intros k' c' Hk. lia.
      * apply IH in H. destruct H as [k [Hj [Hn [Ho' [Hs Hmin]]]]].
        exists (S k). split; [lia|]. split; [exact Hn|]. split; [exact Ho'|].
        split; [exact Hs|]. intros [|k'] c' Hk Hc; simpl in Hc.
        -- injection Hc as <-. right. unfold overlapping. rewrite Hint. exact Ho.
        -- destruct (Hmin k' c') as [Hl|Hr]; [lia | exact Hc | left; lia | right; exact Hr].
Qed.

Lemma scan_from_none (n i : nat) (ci : Curve) (rest : list Curve) :
  forall j,
    scan_from n i j ci rest = None ->
    forall k c, nth_error rest k = Some c ->
      (i = 0 /\ j + k = n - 1) \/ overlapping ci c = false.
Proof.
  induction rest as [|c rest IH]; intros j H k c' Hc; cbn [scan_from] in H.
  - destruct k; discriminate.
  - destruct ((i =? 0) && (j =? n - 1)) eqn:Hskip.
    + destruct k as [|k]; simpl in Hc.
      * left. apply andb_true_iff in Hskip. destruct Hskip as [H1 H2].
        apply Nat.eqb_eq in H1, H2. lia.
      * destruct (IH (S j) H k c' Hc) as [Hl|Hr]; [left; lia | right; exact Hr].
    + destruct (Intersect ci c) as [cmp pts] eqn:Hint.
      destruct (is_Overlap cmp) eqn:Ho; [discriminate|].
      destruct k as [|k]; simpl in Hc.
      * injection Hc as <-. right. unfold overlapping. rewrite Hint. exact Ho.
      * destruct (IH (S j) H k c' Hc) as [Hl|Hr]; [left; lia | right; exact Hr].
Qed.

Lemma nth_error_skipn1 (A : Type) (l : list A) (k : nat) :
  nth_error (skipn 1 l) k = nth_error l (S k).
Proof. destruct l; simpl; [destruct k; reflexivity | reflexivity]. Qed.

(** The outer loop, on [tail = room_boundary[i:]]: positions are relative
    to [tail]. *)
Lemma scan_some (n : nat) (tail : list Curve) :
  forall i d,
    scan n i tail = Some d ->
    exists k m,
      current_index d = i + k /\ intersect_index d = i + k + 2 + m /\
      nth_error tail k = Some (current_curve d) /\
      nth_error tail (k + 2 + m) = Some (intersect_curve d) /\
      Intersect (current_curve d) (intersect_curve d) = (Overlap, results d) /\
      ~ (current_index d = 0 /\ intersect_index d = n - 1) /\
      forall k' m' c c',
        k' < k \/ (k' = k /\ m' < m) ->
        nth_error tail k' = Some c ->
        nth_error tail (k' + 2 + m') = Some c' ->
        (i + k' = 0 /\ i + k' + 2 + m' = n - 1) \/ overlapping c c' = false.
Proof.
  induction tail as [|ci tail IH]; intros i d H; cbn [scan] in H.
  - discriminate.
  - destruct (scan_from n i (i + 2) ci (skipn 1 tail)) as [[[j cj] res]|] eqn:Hin.
    + injection H as <-. cbn [current_index intersect_index current_curve
                               intersect_curve results].
      apply scan_from_some in Hin. destruct Hin as [m [Hj [Hn [Ho [Hs Hmin]]]]].
      rewrite nth_error_skipn1 in Hn.
      exists 0, m. split; [lia|]. split; [lia|]. split; [reflexivity|].
      split; [exact Hn|]. split; [exact Ho|]. split; [exact Hs|].
      intros k' m' c c' [Hk|[Hk Hm]] Hc Hc'; [lia|]. subst k'.
      simpl in Hc, Hc'. injection Hc as <-.
      destruct (Hmin m' c') as [Hl|Hr];
        [exact Hm | rewrite nth_error_skipn1; exact Hc' | left; lia | right; exact Hr].
    + assert (Hnone := fun k c => @scan_from_none n i ci (skipn 1 tail) (i + 2) Hin k c).
      apply IH in H.
      destruct H as [k [m [Hi [Hj [Hc [Hc' [Ho [Hs Hmin]]]]]]]].
      exists (S k), m. split; [lia|]. split; [lia|]. split; [exact Hc|].
      split; [exact Hc'|]. split; [exact Ho|]. split; [exact Hs|].
      intros [|k'] m' c c' Hlex Hx Hx'; simpl in Hx, Hx'.
      * injection Hx as <-.
        destruct (Hnone m' c') as [Hl|Hr];
          [rewrite nth_error_skipn1; exact Hx' | left; lia | right; exact Hr].
      * destruct (Hmin k' m' c c') as [Hl|Hr];
          [lia | exact Hx | exact Hx' | left; lia | right; exact Hr].
Qed.

Lemma scan_none (n : nat) (tail : list Curve) :
  forall i,
    scan n i tail = None ->
    forall k m c c',
      nth_error tail k = Some c ->
      nth_error tail (k + 2 + m) = Some c' ->
      (i + k = 0 /\ i + k + 2 + m = n - 1) \/ overlapping c c' = false.
Proof.
  induction tail as [|ci tail IH]; intros i H k m c c' Hc Hc'; cbn [scan] in H.
  - destruct k; discriminate.
  - destruct (scan_from n i (i + 2) ci (skipn 1 tail)) as [[[j cj] res]|] eqn:Hin;
      [discriminate|].
    destruct k as [|k]; simpl in Hc, Hc'.
    + injection Hc as <-.
      destruct (@scan_from_none n i ci (skipn 1 tail) (i + 2) Hin m c') as [Hl|Hr];
        [rewrite nth_error_skipn1; exact Hc' | left; lia | right; exact Hr].
    + destruct (IH (S i) H k m c c' Hc Hc') as [Hl|Hr]; [left; lia | right; exact Hr].
Qed.

(** X2.  The pair the scan reports consists of the curves at the reported
    indices, is a tested pair ([j >= i + 2], not the first with the last),
    comes with the host's [Overlap] result, and no tested pair before it in
    the order of the two loops overlaps. *)
Theorem first_overlap_is_first_tested_overlap (room_boundary : list Curve)
    (d : Defect) (Hfound : first_overlap room_boundary = Some d) :
  let n := length room_boundary in
  nth_error room_boundary (current_index d) = Some (current_curve d) /\
  nth_error room_boundary (intersect_index d) = Some (intersect_curve d) /\
  tested_pair n (current_index d) (intersect_index d) /\
  Intersect (current_curve d) (intersect_curve d) = (Overlap, results d) /\
  forall i j ci cj,
    lex_before i j (current_index d) (intersect_index d) ->
    tested_pair n i j ->
    nth_error room_boundary i = Some ci ->
    nth_error room_boundary j = Some cj ->
    overlapping ci cj = false.
Proof.
  intros n. apply scan_some in Hfound.
  destruct Hfound as [k [m [Hi [Hj [Hc [Hc' [Ho [Hs Hmin]]]]]]]].
  simpl in Hi, Hj. rewrite Hi, Hj.
  split; [exact Hc|]. split; [exact Hc'|].
  split; [split; [lia | intros [Ha Hb]; apply Hs; fold n; lia]|].
  split; [exact Ho|].
  intros i j ci cj Hlex [Hge Hns] Hci Hcj.
  destruct (Hmin i (j - i - 2) ci cj) as [Hl|Hr].
  - unfold lex_before in Hlex. lia.
  - exact Hci.
  - replace (i + 2 + (j - i - 2)) with j by lia. exact Hcj.
  - exfalso. apply Hns. fold n in Hl. lia.
  - exact Hr.
Qed.

(** X3.  The scan finds nothing exactly when no tested pair of the boundary
    overlaps. *)
Theorem no_overlap_iff_no_tested_pair_overlaps (room_boundary : list Curve) :
  first_overlap room_boundary = None <->
  forall i j ci cj,
    tested_pair (length room_boundary) i j ->
    nth_error room_boundary i = Some ci ->
    nth_error room_boundary j = Some cj ->
    overlapping ci cj = false.
Proof.
  split.
  - intros H i j ci cj [Hge Hns] Hci Hcj.
    destruct (@scan_none (length room_boundary) room_boundary 0 H i (j - i - 2) ci cj) as [Hl|Hr].
    + exact Hci.
    + replace (i + 2 + (j - i - 2)) with j by lia. exact Hcj.
    + exfalso. apply Hns. lia.
    + exact Hr.
  - intros H. destruct (first_overlap room_boundary) as [d|] eqn:Hd; [|reflexivity].
    apply scan_some in Hd.
    destruct Hd as [k [m [Hi [Hj [Hc [Hc' [Ho [Hs Hmin]]]]]]]].
    simpl in Hi, Hj.
    assert (Hf : overlapping (current_curve d) (intersect_curve d) = false).
    { apply (H k (k + 2 + m)); [split; [lia|] | exact Hc | exact Hc'].
      intros [Ha Hb]. apply Hs. lia. }
    unfold overlapping in Hf. rewrite Ho in Hf. discriminate.
Qed.


Lemma length_iter_rotate (n : nat) (room_boundary : list Curve) :
  length (Nat.iter n rotate room_boundary) = length room_boundary.
Proof.
  induction n as [|n IH]; simpl; [reflexivity|]. rewrite length_rotate. exact IH.
Qed.

Lemma settle_length (room_boundary r : list Curve) :
  settle room_boundary = Ret r ->
  (r = room_boundary /\ first_overlap room_boundary = None)
  \/ length r < length room_boundary.
Proof.
  unfold settle. destruct (first_overlap room_boundary) as [d|] eqn:Hd.
  - intros H. right. destruct (first_overlap_found room_boundary Hd) as [Hb Hs].
    eapply repair_defect_shorter; eassumption.
  - intros H. injection H as <-. left. split; reflexivity.
Qed.

(** X4.  A pass that returns gives either a strictly shorter loop or the input
    rotated by at most 4 places, and in that case a loop in which the scan
    finds nothing. *)
Theorem pass_shortens_or_rotates (room_boundary r : list Curve)
    (Hpass : remove_single_imperfection_from_boundary room_boundary 0 = Ret r) :
  length r < length room_boundary
  \/ exists n, n <= 4 /\ r = Nat.iter n rotate room_boundary
               /\ first_overlap r = None.
Proof.
  destruct (@remove_single_rotations K 4 room_boundary 0 eq_refl)
    as [n [Hn [_ [_ Hres]]]].
  rewrite Hres in Hpass. apply settle_length in Hpass.
  rewrite length_iter_rotate in Hpass.
  destruct Hpass as [[-> Hnone]|Hlt]; [right | left; exact Hlt].
  exists n. split; [exact Hn|]. split; [reflexivity | exact Hnone].
Qed.

Lemma loop_length (n : nat) :
  forall room_boundary r,
    remove_imperfections_loop n room_boundary = Ret r ->
    length r <= length room_boundary.
Proof.
  induction n as [|n IH]; intros b r; simpl.
  - intros H; injection H as <-. lia.
  - destruct (remove_single_imperfection_from_boundary b 0) as [nb|e] eqn:Hs;
      simpl; [|discriminate].
    eapply remove_single_length in Hs; [|reflexivity]. destruct Hs as [Hle _].
    destruct (length nb =? length b).
    + intros H; injection H as <-. exact Hle.
    + intros H. apply IH in H. lia.
Qed.

(** X5.  Repair never lengthens the boundary; if the result still has an
    overlapping tested pair, every one of the 10 passes shortened it. *)
Theorem repair_never_lengthens (room_boundary r : list Curve)
    (Hrepair : remove_imperfections_from_boundary room_boundary = Ret r) :
  length r <= length room_boundary
  /\ (first_overlap r <> None -> length r + max_iterations <= length room_boundary).
Proof.
  split.
  - eapply loop_length. exact Hrepair.
  - intros Hdefect. apply loop_settled_or_capped in Hrepair.
    destruct Hrepair as [Hnone|[_ Hcap]]; [contradiction | exact Hcap].
Qed.

(** X6.  A boundary of at most 3 segments is returned unchanged, without any
    call to the host. *)
Theorem short_boundary_unchanged (room_boundary : list Curve)
    (Hshort : length room_boundary <= 3) :
  remove_imperfections_from_boundary room_boundary = Ret room_boundary.
Proof.
  apply loop_simple. apply first_overlap_short. exact Hshort.
Qed.

(** X7.  When the first overlapping pair does not involve segment 0 and the
    host refuses one of the two shortened lines of situation 1, repair raises
    [ArgumentsInconsistentException]: only situation 2 is guarded by the
    [try]. *)
Theorem refused_line_makes_repair_raise (room_boundary : list Curve) (d : Defect)
    (p : QXYZ) (ps : list QXYZ)
    (Hfound : first_overlap room_boundary = Some d)
    (Hindex : current_index d <> 0)
    (Hpoint : results d = p :: ps)
    (Hrefused : CreateBound (GetEndPoint (current_curve d) 0) p = None
                \/ CreateBound p (GetEndPoint (intersect_curve d) 1) = None) :
  remove_imperfections_from_boundary room_boundary
  = Raise ArgumentsInconsistentException.
Proof.
  unfold remove_imperfections_from_boundary, max_iterations.
  cbn [remove_imperfections_loop].
  rewrite remove_single_unfold, Hfound.
  apply Nat.eqb_neq in Hindex. rewrite Hindex. cbn [andb].
  unfold repair_defect, Line_CreateBound, Item0. rewrite Hpoint. cbn [bind].
  destruct Hrefused as [H|H].
  - rewrite H. reflexivity.
  - destruct (CreateBound (GetEndPoint (current_curve d) 0) p); cbn [bind];
      [rewrite H|]; reflexivity.
Qed.

(** *** Loop selection *)

Lemma largest_loop_fold_area (loops : list (list BoundarySegment)) :
  forall acc, snd (fold_left largest_loop_step loops (acc, 0%Q)) = 0%Q.
Proof.
  induction loops as [|x ls IH]; intros acc; simpl; [reflexivity|].
  destruct (Qgtb _ 0%Q); apply IH.
Qed.

Lemma largest_loop_fold_none (loops : list (list BoundarySegment)) :
  fst (fold_left largest_loop_step loops (None, 0%Q)) = None <->
  Forall (fun segments =>
            (calculate_surface_area_of_boundary (map GetCurve segments) <= 0)%Q)
         loops.
Proof.
  induction loops as [|x ls IH] using rev_ind.
  - simpl. split; [constructor | reflexivity].
  - rewrite fold_left_app. cbn [fold_left].
    pose proof (largest_loop_fold_area ls None) as Hz.
    destruct (fold_left largest_loop_step ls (None, 0%Q)) as [res largest].
    simpl in Hz, IH. subst largest. unfold largest_loop_step.
    rewrite Forall_app.
    destruct (Qgtb (calculate_surface_area_of_boundary (map GetCurve x)) 0) eqn:Hg.
    + simpl. split; [discriminate|]. intros [_ Hx]. inversion Hx; subst.
      apply Qgtb_lt in Hg. exfalso. eapply Qlt_not_le; eassumption.
    + simpl. rewrite IH. split.
      * intros H. split; [exact H|]. constructor; [|constructor].
        apply Qgtb_false_le. exact Hg.
      * intros [H _]. exact H.
Qed.

(** X8.  Unless exactly one loop is given, no loop is selected exactly when no
    loop has a positive computed area (a single loop is returned whatever its
    area). *)
Theorem no_loop_selected_iff_no_positive_area
    (room_boundary_segments : list (list BoundarySegment))
    (Hseveral : length room_boundary_segments <> 1) :
  get_largest_curveloop_from_room_boundary room_boundary_segments = None <->
  Forall (fun segments =>
            (calculate_surface_area_of_boundary (map GetCurve segments) <= 0)%Q)
         room_boundary_segments.
Proof.
  assert (Hfold : get_largest_curveloop_from_room_boundary room_boundary_segments
                  = fst (fold_left largest_loop_step room_boundary_segments
                                   (None, 0%Q))).
  { destruct room_boundary_segments as [|l [|l' ls]];
      [reflexivity | simpl in Hseveral; congruence | reflexivity]. }
  rewrite Hfold. apply largest_loop_fold_none.
Qed.

(** X9.  With several loops, a last loop of positive computed area is
    returned whatever the areas of the loops before it. *)
Theorem last_positive_loop_is_selected (loops : list (list BoundarySegment))
    (segments : list BoundarySegment)
    (Hseveral : loops <> [])
    (Hpositive : (0 < calculate_surface_area_of_boundary (map GetCurve segments))%Q) :
  get_largest_curveloop_from_room_boundary (loops ++ [segments])
  = Some (map GetCurve segments).
Proof.
  apply get_largest_last_positive; assumption.
Qed.

Lemma largest_loop_fold_in (loops : list (list BoundarySegment)) (c : list Curve) :
  fst (fold_left largest_loop_step loops (None, 0%Q)) = Some c ->
  exists segments, In segments loops /\ c = map GetCurve segments.
Proof.
  induction loops as [|x ls IH] using rev_ind.
  - simpl. discriminate.
  - rewrite fold_left_app. cbn [fold_left].
    destruct (fold_left largest_loop_step ls (None, 0%Q)) as [res largest].
    unfold largest_loop_step.
    destruct (Qgtb _ largest); simpl.
    + intros H; injection H as <-. exists x. split; [|reflexivity].
      apply in_or_app. right. left. reflexivity.
    + intros H. destruct (IH H) as [s [Hin Hc]]. exists s. split; [|exact Hc].
      apply in_or_app. left. exact Hin.
Qed.

Lemma get_largest_in (loops : list (list BoundarySegment)) (c : list Curve) :
  get_largest_curveloop_from_room_boundary loops = Some c ->
  exists segments, In segments loops /\ c = map GetCurve segments.
Proof.
  destruct loops as [|l [|l' ls]].
  - discriminate.
  - simpl. intros H; injection H as <-. exists l. split; [left|]; reflexivity.
  - apply largest_loop_fold_in.
Qed.

(** X10.  The adapted boundary is [None] exactly when no loop is selected, and
    otherwise has at most as many curves as one of the given loops has
    segments. *)
Theorem adapted_boundary_comes_from_a_loop
    (room_boundary_segments : list (list BoundarySegment)) :
  (adapt_room_boundary_to_useful_curveloop room_boundary_segments = Ret None <->
   get_largest_curveloop_from_room_boundary room_boundary_segments = None)
  /\
  (forall curve_loop,
     adapt_room_boundary_to_useful_curveloop room_boundary_segments
     = Ret (Some curve_loop) ->
     exists segments,
       In segments room_boundary_segments /\
       length curve_loop <= length segments).
Proof.
  unfold adapt_room_boundary_to_useful_curveloop.
  destruct (get_largest_curveloop_from_room_boundary room_boundary_segments)
    as [c|] eqn:Hsel.
  - split.
    + destruct (remove_imperfections_from_boundary c); simpl;
        split; discriminate.
    + intros curve_loop H.
      destruct (remove_imperfections_from_boundary c) as [r|e] eqn:Hr; simpl in H;
        [|discriminate].
      injection H as <-.
      destruct (get_largest_in _ Hsel) as [s [Hin Hc]].
      exists s. split; [exact Hin|].
      eapply loop_length in Hr. rewrite Hc, length_map in Hr. exact Hr.
  - split; [split; reflexivity | discriminate].
Qed.

End RepairFacts.

(** ** Orientation *)

Section ResolverShape.

Context {K : Kernel}.

Lemma orientation_loop_result (f r : QXYZ) (fl rl : Curve) (room_boundary : list Curve) :
  forall res,
    orientation_loop f r fl rl room_boundary = Ret res ->
    (res = (None, None) /\
     forall c, In c room_boundary -> missed_by rl c /\ missed_by fl c)
    \/
    (exists d p curve,
       res = (Some d, Some (reported p curve)) /\ In curve room_boundary /\
       ((d = r /\ hit_by rl curve p)
        \/ (d = f /\ missed_by rl curve /\ hit_by fl curve p))).
Proof.
  induction room_boundary as [|curve rest IH]; intros res H;
    cbn [orientation_loop] in H.
  - injection H as <-. left. split; [reflexivity|]. intros c [].
  - destruct (set_z_coordinate_of_line curve 0) as [flat|e] eqn:Hflat;
      cbn [bind] in H; [|discriminate].
    destruct (Intersect flat rl) as [cmp pts] eqn:Hrev.
    destruct (is_Overlap cmp) eqn:Ho.
    + right. unfold hit, Item0 in H. destruct pts as [|p ps]; cbn [bind] in H;
        [discriminate|]. injection H as <-.
      exists r, p, curve. split; [reflexivity|]. split; [left; reflexivity|].
      left. split; [reflexivity|]. exists flat, ps. split; [exact Hflat|].
      destruct cmp; try discriminate. exact Hrev.
    + assert (Hmr : missed_by rl curve).
      { exists flat. split; [exact Hflat|]. rewrite Hrev. exact Ho. }
      destruct (Intersect flat fl) as [cmp' pts'] eqn:Hfwd.
      destruct (is_Overlap cmp') eqn:Ho'.
      * right. unfold hit, Item0 in H. destruct pts' as [|p ps]; cbn [bind] in H;
          [discriminate|]. injection H as <-.
        exists f, p, curve. split; [reflexivity|]. split; [left; reflexivity|].
        right. split; [reflexivity|]. split; [exact Hmr|].
        exists flat, ps. split; [exact Hflat|].
        destruct cmp'; try discriminate. exact Hfwd.
      * destruct (IH _ H) as [[Hres Hmiss]|[d [p [c [Hres [Hin Hd]]]]]].
        -- left. split; [exact Hres|]. intros c [<-|Hc]; [|apply Hmiss; exact Hc].
           split; [exact Hmr|]. exists flat. split; [exact Hflat|].
           rewrite Hfwd. exact Ho'.
        -- right. exists d, p, c. split; [exact Hres|]. split; [right; exact Hin|].
           exact Hd.
Qed.

(** X11.  The resolver returns either [(None, None)] or a direction together
    with a point; the direction is the window's facing orientation or its
    reverse, and the point takes its Z from a curve of the boundary. *)
Theorem resolved_orientation_shape (window : Window) (room_boundary : list Curve)
    (res : OrientationResult)
    (Hres : get_correct_facing_orientation window room_boundary = Ret res) :
  res = (None, None)
  \/ exists d p curve,
       res = (Some d, Some (reported p curve)) /\ In curve room_boundary /\
       (d = FacingOrientation window \/ d = reverse_of window).
Proof.
  unfold get_correct_facing_orientation in Hres. fold (reverse_of window) in Hres.
  destruct (test_ray (Location_Point window) (FacingOrientation window))
    as [fl|e]; cbn [bind] in Hres; [|discriminate].
  destruct (test_ray (Location_Point window) (reverse_of window))
    as [rl|e]; cbn [bind] in Hres; [|discriminate].
  apply orientation_loop_result in Hres.
  destruct Hres as [[Hres _]|[d [p [c [Hres [Hin Hd]]]]]]; [left; exact Hres|].
  right. exists d, p, c. split; [exact Hres|]. split; [exact Hin|].
  destruct Hd as [[-> _]|[-> _]]; [right | left]; reflexivity.
Qed.

(** X12.  The converse of C9: when the sentinel is returned, both rays were
    built and neither overlaps any flattened segment of the boundary. *)
Theorem sentinel_means_no_hit (window : Window) (room_boundary : list Curve)
    (Hres : get_correct_facing_orientation window room_boundary = Ret (None, None)) :
  exists facing_line reverse_line,
    test_ray (Location_Point window) (FacingOrientation window) = Ret facing_line /\
    test_ray (Location_Point window) (reverse_of window) = Ret reverse_line /\
    forall c, In c room_boundary ->
      missed_by reverse_line c /\ missed_by facing_line c.
Proof.
  unfold get_correct_facing_orientation in Hres. fold (reverse_of window) in Hres.
  destruct (test_ray (Location_Point window) (FacingOrientation window))
    as [fl|e]; cbn [bind] in Hres; [|discriminate].
  destruct (test_ray (Location_Point window) (reverse_of window))
    as [rl|e]; cbn [bind] in Hres; [|discriminate].
  exists fl, rl. split; [reflexivity|]. split; [reflexivity|].
  apply orientation_loop_result in Hres.
  destruct Hres as [[_ Hmiss]|[d [p [c [Hres _]]]]]; [exact Hmiss | discriminate].
Qed.

(** X13.  [find_from_room] passes over boundaries on which the orientation is
    undetermined: it gives the sentinel when all are, and the result of the
    first boundary that resolves. *)
Theorem find_from_room_skips_unresolved (window : Window)
    (before : list (list Curve))
    (Hbefore : forall b, In b before ->
                 get_correct_facing_orientation window b = Ret (None, None)) :
  find_from_room window before = Ret (None, None)
  /\
  forall room_boundary after d p,
    get_correct_facing_orientation window room_boundary = Ret (Some d, p) ->
    find_from_room window (before ++ room_boundary :: after) = Ret (Some d, p).
Proof.
  induction before as [|b before IH].
  - split; [reflexivity|]. intros rb after d p H. cbn [app find_from_room].
    rewrite H. reflexivity.
  - assert (Hb : get_correct_facing_orientation window b = Ret (None, None))
      by (apply Hbefore; left; reflexivity).
    destruct IH as [IH1 IH2]; [intros b' Hb'; apply Hbefore; right; exact Hb'|].
    split.
    + cbn [find_from_room]. rewrite Hb. exact IH1.
    + intros rb after d p H. cbn [app find_from_room]. rewrite Hb. cbn [bind fst].
      apply IH2. exact H.
Qed.

(** X14.  On a host whose lines keep their end points, flattening moves both
    end points to the requested elevation and keeps X and Y; flattening again
    only replaces the elevation. *)
Theorem flattening_sets_elevation (line flat : Curve) (z z' : Q)
    (Hhost : keeps_end_points)
    (Hflat : set_z_coordinate_of_line line z = Ret flat) :
  GetEndPoint flat 0
  = mkXYZ (Xof (GetEndPoint line 0)) (Yof (GetEndPoint line 0)) z
  /\ GetEndPoint flat 1
     = mkXYZ (Xof (GetEndPoint line 1)) (Yof (GetEndPoint line 1)) z
  /\ set_z_coordinate_of_line flat z' = set_z_coordinate_of_line line z'.
Proof.
  unfold set_z_coordinate_of_line, Line_CreateBound in Hflat.
  destruct (CreateBound _ _) as [c|] eqn:Hc; [|discriminate].
  injection Hflat as <-. destruct (Hhost _ _ _ Hc) as [H0 H1].
  split; [exact H0|]. split; [exact H1|].
  unfold set_z_coordinate_of_line. rewrite H0, H1. reflexivity.
Qed.

End ResolverShape.

(** ** The zone constructor *)

(** X15.  [get_size_from_window] returns a height and a width exactly when both
    parameters resolve (instance first, then type) to nonzero values, and
    [(None, None)] otherwise, never one without the other. *)
Theorem size_is_both_or_neither (window : WindowElement) (ph pw : string) :
  (forall height width,
     get_size_from_window window ph pw = (Some height, Some width) <->
     resolved_value window ph = Some height /\
     resolved_value window pw = Some width /\
     height <> 0%R /\ width <> 0%R)
  /\
  (get_size_from_window window ph pw = (None, None)
   \/ exists height width,
        get_size_from_window window ph pw = (Some height, Some width)).
Proof.
  assert (Hcases :
    (exists h w, resolved_value window ph = Some h /\ resolved_value window pw = Some w
                 /\ h <> 0%R /\ w <> 0%R
                 /\ get_size_from_window window ph pw = (Some h, Some w))
    \/ ((resolved_value window ph = None \/ resolved_value window pw = None
         \/ resolved_value window ph = Some 0%R \/ resolved_value window pw = Some 0%R)
        /\ get_size_from_window window ph pw = (None, None))).
  { unfold resolved_value, get_size_from_window.
    destruct (LookupParameter window ph) as [p|];
      [|destruct (Symbol_LookupParameter (Symbol window) ph) as [p|]];
      (destruct (LookupParameter window pw) as [q|];
       [|destruct (Symbol_LookupParameter (Symbol window) pw) as [q|]]);
      try (right; split; [tauto | reflexivity]);
      (destruct (Req_dec_T (AsDouble p) 0) as [e|e];
       [right; split; [rewrite e; tauto | reflexivity]|];
       destruct (Req_dec_T (AsDouble q) 0) as [e'|e'];
       [right; split; [rewrite e'; tauto | reflexivity]|];
       left; exists (AsDouble p), (AsDouble q); tauto). }
  split.
  - intros height width. split.
    + intros H. destruct Hcases as [[h [w [Hh [Hw [Hh0 [Hw0 Hs]]]]]]|[_ Hs]];
        rewrite Hs in H; [|discriminate].
      injection H as <- <-. tauto.
    + intros [Hh [Hw [Hh0 Hw0]]].
      destruct Hcases as [[h [w [Hh' [Hw' [_ [_ Hs]]]]]]|[Hbad _]].
      * rewrite Hs. congruence.
      * exfalso. destruct Hbad as [H|[H|[H|H]]]; try congruence.
  - destruct Hcases as [[h [w [_ [_ [_ [_ Hs]]]]]]|[_ Hs]]; [right | left].
    + exists h, w. exact Hs.
    + exact Hs.
Qed.

Section ZoneGeometry.

Variable RLine : Type.
Variable CreateBoundR : RXYZ -> RXYZ -> option RLine.

(** X16.  For a horizontal unit facing orientation [f], with [u] a quarter turn
    to the left of [f], the zone runs from [anchor - (w/2) u] to
    [anchor + (w/2) u] and its far edge lies [h] further along [f], from
    [anchor + (h + w/2) u + h f] to [anchor - (h + w/2) u + h f]. *)
Theorem zone_extends_along_facing (window : WindowElement)
    (facing_orientation intersection_point : RXYZ)
    (param_window_height param_window_width : string) (height width : R)
    (Hheight : resolved_value window param_window_height = Some height)
    (Hwidth : resolved_value window param_window_width = Some width)
    (Hheight_nonzero : height <> 0%R)
    (Hwidth_nonzero : width <> 0%R)
    (Hunit : (Xof facing_orientation * Xof facing_orientation
              + Yof facing_orientation * Yof facing_orientation = 1)%R) :
  let f := mkXYZ (Xof facing_orientation) (Yof facing_orientation) 0%R in
  let u := mkXYZ (- Yof facing_orientation)%R (Xof facing_orientation) 0%R in
  let anchor := resolved_anchor window intersection_point in
  calculate_full_daylight_zone CreateBoundR window facing_orientation
    intersection_point param_window_height param_window_width
  = loop_through CreateBoundR
      (radd (rscale (- (width / 2)) u) anchor)
      (radd (rscale (width / 2) u) anchor)
      (radd (radd (rscale (height + width / 2) u) (rscale height f)) anchor)
      (radd (radd (rscale (- (height + width / 2)) u) (rscale height f)) anchor).
Proof.
  intros f u anchor.
  rewrite (@calculate_zone_corners RLine CreateBoundR window facing_orientation
             intersection_point param_window_height param_window_width
             height width Hheight Hwidth Hheight_nonzero Hwidth_nonzero);
    [|split; nra].
  rewrite (@placed_along_facing facing_orientation
             (resolved_anchor window intersection_point) width height Hunit).
  reflexivity.
Qed.

(** X17.  Whatever the orientation, the zone's sides have squared lengths [w^2],
    [2 h^2], [(2h + w)^2] and [2 h^2], and its four corners lie at the
    window's elevation. *)
Theorem zone_is_congruent_trapezoid (window : WindowElement)
    (facing_orientation intersection_point : RXYZ)
    (param_window_height param_window_width : string) (height width : R)
    (Hheight : resolved_value window param_window_height = Some height)
    (Hwidth : resolved_value window param_window_width = Some width)
    (Hheight_nonzero : height <> 0%R)
    (Hwidth_nonzero : width <> 0%R)
    (Hfacing : (-1 <= Yof facing_orientation <= 1)%R) :
  exists p1 p2 p3 p4,
    calculate_full_daylight_zone CreateBoundR window facing_orientation
      intersection_point param_window_height param_window_width
    = loop_through CreateBoundR p1 p2 p3 p4 /\
    dist2 p1 p2 = (width * width)%R /\
    dist2 p2 p3 = (2 * (height * height))%R /\
    dist2 p3 p4 = ((2 * height + width) * (2 * height + width))%R /\
    dist2 p4 p1 = (2 * (height * height))%R /\
    Forall (fun p => Zof p = Zof (Location window)) [p1; p2; p3; p4].
Proof.
  rewrite (@calculate_zone_corners RLine CreateBoundR window facing_orientation
             intersection_point param_window_height param_window_width
             height width Hheight Hwidth Hheight_nonzero Hwidth_nonzero Hfacing).
  unfold loop_of_corners, placed, trapezoid_at_origin. cbn [map].
  set (a := code_angle facing_orientation).
  pose proof (sin2_cos2 a) as Hsc. unfold Rsqr in Hsc.
  do 4 eexists. split; [reflexivity|].
  unfold dist2, radd, rotate_z, resolved_anchor. cbn [Xof Yof Zof].
  set (c := cos a) in *. set (s := sin a) in *.
  assert (Hside : forall lhs rhs : R,
             lhs = (rhs * (s * s + c * c))%R -> lhs = rhs).
  { intros lhs rhs ->. rewrite Hsc. ring. }
  split; [apply Hside; field|]. split; [apply Hside; field|].
  split; [apply Hside; field|]. split; [apply Hside; field|].
  repeat (apply Forall_cons; [cbn [Zof]; lra|]). apply Forall_nil.
Qed.

End ZoneGeometry.

(** ** Shaft expansion *)

Section OffsetFacts.

Context {K : Kernel}.

Lemma cyclic_prev_lt (n i : nat) : 0 < n -> cyclic_prev n i < n.
Proof. intros H. unfold cyclic_prev. apply Nat.mod_upper_bound. lia. Qed.

Lemma cyclic_next_lt (n i : nat) : 0 < n -> cyclic_next n i < n.
Proof. intros H. unfold cyclic_next. apply Nat.mod_upper_bound. lia. Qed.

Lemma cyclic_prev_next (n i : nat) : i < n -> cyclic_prev n (cyclic_next n i) = i.
Proof.
  intros H. unfold cyclic_prev, cyclic_next.
  destruct (Nat.eq_dec (i + 1) n) as [e|e].
  - rewrite e, Nat.Div0.mod_same. replace (0 + n - 1) with i by lia.
    apply Nat.mod_small. exact H.
  - rewrite (Nat.mod_small (i + 1)) by lia.
    replace (i + 1 + n - 1) with (i + 1 * n) by lia.
    rewrite Nat.Div0.mod_add. apply Nat.mod_small. exact H.
Qed.

Lemma offset_lines_fail (vectors : list QXYZ) (curves : list Curve) :
  forall index : nat,
    index + length curves = length vectors ->
    offset_lines vectors (Z.of_nat index) curves = None ->
    exists k curve v_prev v v_next,
      nth_error curves k = Some curve /\
      nth_error vectors (cyclic_prev (length vectors) (index + k)) = Some v_prev /\
      nth_error vectors (index + k) = Some v /\
      nth_error vectors (cyclic_next (length vectors) (index + k)) = Some v_next /\
      CreateBound (vadd (vadd (GetEndPoint curve 0) v) v_prev)
                  (vadd (vadd (GetEndPoint curve 1) v) v_next) = None.
Proof.
  induction curves as [|c curves IH]; intros index Hlen H; cbn [offset_lines] in H.
  - discriminate.
  - cbv zeta in H. simpl in Hlen. rewrite item_of_nat in H.
    assert (Hpos : 0 < length vectors) by lia.
    assert (Hne : vectors <> []) by (intros ->; simpl in Hpos; lia).
    rewrite item_prev, item_next in H by exact Hne.
    destruct (nth_error vectors index) as [v|] eqn:Hv;
      [|apply nth_error_None in Hv; lia].
    destruct (nth_error vectors (cyclic_prev (length vectors) index)) as [vp|] eqn:Hvp;
      [|apply nth_error_None in Hvp;
        pose proof (@cyclic_prev_lt (length vectors) index Hpos); lia].
    destruct (nth_error vectors (cyclic_next (length vectors) index)) as [vn|] eqn:Hvn;
      [|apply nth_error_None in Hvn;
        pose proof (@cyclic_next_lt (length vectors) index Hpos); lia].
    destruct (CreateBound _ _) as [line0|] eqn:Hline.
    + replace (Z.of_nat index + 1)%Z with (Z.of_nat (S index)) in H by lia.
      destruct (offset_lines vectors (Z.of_nat (S index)) curves) as [ls|] eqn:Hrest;
        [discriminate|].
      destruct (IH (S index)) as [k [curve [vp' [v' [vn' [Hc [H1 [H2 [H3 H4]]]]]]]]];
        [lia | exact Hrest |].
      exists (S k), curve, vp', v', vn'.
      replace (index + S k) with (S index + k) by lia.
      repeat split; assumption.
    + exists 0, c, vp, v, vn. rewrite Nat.add_0_r. repeat split; assumption.
Qed.

(** X18.  With one vector per segment the index arithmetic of a candidate never
    fails: the lines fail to build only because the host refuses the line
    for some segment. *)
Theorem candidate_fails_only_on_refused_line (vectors : list QXYZ)
    (curve_loop : list Curve)
    (Hlength : length vectors = length curve_loop)
    (Hfail : offset_lines vectors 0 curve_loop = None) :
  exists i curve v_prev v v_next,
    nth_error curve_loop i = Some curve /\
    nth_error vectors (cyclic_prev (length vectors) i) = Some v_prev /\
    nth_error vectors i = Some v /\
    nth_error vectors (cyclic_next (length vectors) i) = Some v_next /\
    CreateBound (vadd (vadd (GetEndPoint curve 0) v) v_prev)
                (vadd (vadd (GetEndPoint curve 1) v) v_next) = None.
Proof.
  change 0%Z with (Z.of_nat 0) in Hfail.
  apply offset_lines_fail in Hfail; [|simpl; lia].
  exact Hfail.
Qed.

Lemma veq_sym (p q : QXYZ) : veq p q -> veq q p.
Proof. unfold veq. intros [H1 [H2 H3]]. repeat split; symmetry; assumption. Qed.

Lemma veq_trans (p q r : QXYZ) : veq p q -> veq q r -> veq p r.
Proof.
  unfold veq. intros [H1 [H2 H3]] [H4 [H5 H6]].
  repeat split; etransitivity; eassumption.
Qed.


(** X20.  [expand_boundary] returns [None] exactly when both candidates fail,
    and a solid it returns is one of the two candidates. *)
Theorem expansion_fails_iff_both_candidates_fail (curve_loop : list Curve)
    (offset_distance shaft_height : Q) :
  let normal :=
    try_expand (normal_vectors curve_loop offset_distance) curve_loop shaft_height in
  let mirrored :=
    try_expand (reverse_vectors curve_loop offset_distance) curve_loop shaft_height in
  (expand_boundary curve_loop offset_distance shaft_height = None <->
   normal = None /\ mirrored = None)
  /\
  (forall solid,
     expand_boundary curve_loop offset_distance shaft_height = Some solid ->
     normal = Some solid \/ mirrored = Some solid).
Proof.
  intros normal mirrored. unfold expand_boundary. fold normal mirrored.
  destruct normal as [e|], mirrored as [r|]; try destruct (Qgtb _ _);
    (split; [split; [try discriminate; tauto | intros [H1 H2]; congruence]
            | intros solid H; try discriminate; tauto]).
Qed.

End OffsetFacts.

(** ** Settings, the settings list and the daylight button *)

Lemma test_is_missing (v : option string) : is_None v || eq_empty v = missing_text v.
Proof. destruct v; reflexivity. Qed.

Lemma eq_empty_present (v : option string) : missing_text v = false -> eq_empty v = false.
Proof. destruct v; [intros H; exact H | reflexivity]. Qed.

(** X21.  The daylight check passes exactly when the two model names and the
    height parameter name are non-empty, the width parameter name is not
    [None] (it may be empty) and at least one family is selected; a width
    name that is [None] is reported with the message for the height. *)
Theorem daylight_check_accepts_exactly (settings : Settings) :
  (check_necessary_settings settings = Ret tt <->
   present (model_levels_grids settings) /\
   present (model_rooms_windows settings) /\
   present (param_window_height settings) /\
   param_window_width settings <> None /\
   exists families,
     selected_window_families settings = Some families /\ families <> [])
  /\
  (present (model_levels_grids settings) ->
   present (model_rooms_windows settings) ->
   present (param_window_height settings) ->
   param_window_width settings = None ->
   check_necessary_settings settings
   = Raise (MissingSettingsError
       "31_Daylight: The parameter for the height of windows is missing in the settings.")).
Proof.
  unfold check_necessary_settings, present. rewrite !test_is_missing.
  destruct (missing_text (model_levels_grids settings)) eqn:H1.
  { split; [split; [discriminate | intros [H _]; discriminate] | discriminate]. }
  destruct (missing_text (model_rooms_windows settings)) eqn:H2.
  { split; [split; [discriminate | intros [_ [H _]]; discriminate] | discriminate]. }
  destruct (missing_text (param_window_height settings)) eqn:H3.
  { split; [split; [discriminate | intros [_ [_ [H _]]]; discriminate]|].
    intros _ _ H; discriminate. }
  rewrite (eq_empty_present _ H3), orb_false_r.
  destruct (param_window_width settings) as [w|]; cbn [is_None].
  - split; [|intros _ _ _ H; discriminate].
    destruct (selected_window_families settings) as [families|].
    + unfold no_keys. rewrite length_map.
      destruct families as [|f families]; simpl.
      * split; [discriminate|]. intros [_ [_ [_ [_ [fs [Hf Hne]]]]]].
        injection Hf as <-. congruence.
      * split; [|reflexivity]. intros _. repeat split; try discriminate.
        eexists. split; [reflexivity | discriminate].
    + split; [discriminate|]. intros [_ [_ [_ [_ [fs [Hf _]]]]]]. discriminate.
  - split; [|intros _ _ _ _; reflexivity].
    split; [discriminate|]. intros [_ [_ [_ [H _]]]]. congruence.
Qed.

(** X22.  The window-types check passes exactly when the rooms model name and
    the height parameter name are non-empty, the width parameter name is not
    [None] (it may be empty) and at least one family is selected. *)
Theorem window_types_check_accepts_exactly (settings : Settings) :
  WindowTypes_check_necessary_settings settings = Ret tt <->
  present (model_rooms_windows settings) /\
  present (param_window_height settings) /\
  param_window_width settings <> None /\
  exists families,
    selected_window_families settings = Some families /\ families <> [].
Proof.
  unfold WindowTypes_check_necessary_settings, present. rewrite !test_is_missing.
  destruct (missing_text (model_rooms_windows settings)) eqn:H2.
  { split; [discriminate | intros [H _]; discriminate]. }
  destruct (missing_text (param_window_height settings)) eqn:H3.
  { split; [discriminate | intros [_ [H _]]; discriminate]. }
  rewrite (eq_empty_present _ H3), orb_false_r.
  destruct (param_window_width settings) as [w|]; cbn [is_None].
  - destruct (selected_window_families settings) as [families|].
    + unfold no_keys. rewrite length_map.
      destruct families as [|f families]; simpl.
      * split; [discriminate|]. intros [_ [_ [_ [fs [Hf Hne]]]]].
        injection Hf as <-. congruence.
      * split; [|reflexivity]. intros _. repeat split; try discriminate.
        eexists. split; [reflexivity | discriminate].
    + split; [discriminate|]. intros [_ [_ [_ [fs [Hf _]]]]]. discriminate.
  - split; [discriminate|]. intros [_ [_ [H _]]]. congruence.
Qed.

Section ButtonFacts.

Variable daylight_steps : Settings -> Host -> Host * outcome unit.

(** X23.  Neither configuration error ever leaves [run_daylight_script]; a
    [MissingTemplateError] of the later steps is logged as critical on the
    document as the steps left it, after the old area plans were deleted. *)
Theorem configuration_errors_never_escape (settings : Settings) (h : Host) :
  (forall message,
     snd (run_daylight_script daylight_steps settings h)
     <> Raise (MissingSettingsError message))
  /\
  (forall message,
     snd (run_daylight_script daylight_steps settings h)
     <> Raise (MissingTemplateError message))
  /\
  (forall h' message,
     check_necessary_settings settings = Ret tt ->
     daylight_steps settings (delete_area_plans DAYLIGHT_TEMPLATE_NAME h)
     = (h', Raise (MissingTemplateError message)) ->
     run_daylight_script daylight_steps settings h
     = (logger Critical message h', Ret tt)).
Proof.
  unfold run_daylight_script, daylight_body.
  split; [|split].
  - intros message.
    destruct (check_necessary_settings settings) as [[]|e].
    + destruct (daylight_steps settings _) as [h' [[]|e]]; [discriminate|].
      destruct e; simpl; discriminate.
    + destruct e; simpl; discriminate.
  - intros message.
    destruct (check_necessary_settings settings) as [[]|e].
    + destruct (daylight_steps settings _) as [h' [[]|e]]; [discriminate|].
      destruct e; simpl; discriminate.
    + destruct e; simpl; discriminate.
  - intros h' message Hcheck Hsteps. rewrite Hcheck, Hsteps. reflexivity.
Qed.

Lemma name_eqb_eq (a b : option string) : name_eqb a b = true <-> a = b.
Proof.
  destruct a as [x|], b as [y|]; simpl; split; try discriminate; try reflexivity.
  - intros H. apply String.eqb_eq in H. congruence.
  - intros H. injection H as ->. apply String.eqb_refl.
Qed.

Lemma get_settings_none (l : SettingsList) (name : option string) :
  get_settings l name = None <-> ~ In name (get_project_names l).
Proof.
  induction l as [|s l IH]; simpl.
  - split; [intros _ [] | reflexivity].
  - destruct (name_eqb (project_name s) name) eqn:E.
    + apply name_eqb_eq in E. split; [discriminate | intros H; exfalso; apply H; left; exact E].
    + rewrite IH. split.
      * intros H [Hs|Hin]; [|contradiction].
        apply name_eqb_eq in Hs. congruence.
      * intros H Hin. apply H. right. exact Hin.
Qed.

(** X24.  When the stored list has no settings for the project, the daylight
    button raises [AttributeError] and leaves the document as it was. *)
Theorem button_without_record_raises (settings_list : SettingsList)
    (project : option string) (h : Host)
    (Habsent : ~ In project (get_project_names settings_list)) :
  daylight_button daylight_steps settings_list project h = (h, Raise AttributeError).
Proof.
  unfold daylight_button. apply get_settings_none in Habsent.
  rewrite Habsent. reflexivity.
Qed.

End ButtonFacts.

(** *** The settings list *)

Lemma get_settings_some (l : SettingsList) (name : option string) (s : Settings) :
  get_settings l name = Some s -> In s l /\ project_name s = name.
Proof.
  induction l as [|x l IH]; simpl; [discriminate|].
  destruct (name_eqb (project_name x) name) eqn:E.
  - intros H; injection H as <-. split; [left; reflexivity | apply name_eqb_eq; exact E].
  - intros H. destruct (IH H) as [Hin Hn]. split; [right; exact Hin | exact Hn].
Qed.

(** X25.  A name among [get_project_names] has settings with that name, and
    [get_settings] is [None] exactly for the names that are not listed. *)
Theorem listed_name_has_settings (l : SettingsList) (name : option string) :
  (In name (get_project_names l) ->
   exists s, get_settings l name = Some s /\ In s l /\ project_name s = name)
  /\ (get_settings l name = None <-> ~ In name (get_project_names l)).
Proof.
  split; [|apply get_settings_none].
  intros Hin. destruct (get_settings l name) as [s|] eqn:E.
  - exists s. split; [reflexivity|]. eapply get_settings_some. exact E.
  - apply get_settings_none in E. contradiction.
Qed.

Lemma pop_first_absent (name : option string) (l : SettingsList) :
  ~ In name (get_project_names l) -> pop_first name l = l.
Proof.
  induction l as [|x l IH]; simpl; [reflexivity|]. intros H.
  destruct (name_eqb (project_name x) name) eqn:E.
  - apply name_eqb_eq in E. exfalso. apply H. left. exact E.
  - rewrite IH; [reflexivity|]. intros Hin. apply H. right. exact Hin.
Qed.

Lemma pop_first_names (name : option string) (l : SettingsList) :
  NoDup (get_project_names l) ->
  NoDup (get_project_names (pop_first name l))
  /\ ~ In name (get_project_names (pop_first name l))
  /\ forall n, In n (get_project_names (pop_first name l)) ->
               In n (get_project_names l).
Proof.
  induction l as [|x l IH]; simpl; intros Hnd.
  - split; [constructor|]. split; [intros [] | intros n []].
  - inversion Hnd as [|? ? Hx Hl]; subst.
    destruct (name_eqb (project_name x) name) eqn:E.
    + apply name_eqb_eq in E. subst name.
      split; [exact Hl|]. split; [exact Hx|]. intros n Hn. right. exact Hn.
    + destruct (IH Hl) as [Hnd' [Hnot Hsub]]. simpl. split; [|split].
      * constructor; [|exact Hnd']. intros Hin. apply Hx. apply Hsub. exact Hin.
      * intros [Hs|Hin]; [|contradiction].
        apply name_eqb_eq in Hs. congruence.
      * intros n [Hn|Hn]; [left; exact Hn | right; apply Hsub; exact Hn].
Qed.

Lemma get_settings_app (l l' : SettingsList) (name : option string) :
  get_settings (l ++ l') name
  = match get_settings l name with
    | Some s => Some s
    | None => get_settings l' name
    end.
Proof.
  induction l as [|x l IH]; simpl; [reflexivity|].
  destruct (name_eqb (project_name x) name); [reflexivity | exact IH].
Qed.

Lemma get_settings_pop_other (l : SettingsList) (name other : option string) :
  other <> name ->
  get_settings (pop_first name l) other = get_settings l other.
Proof.
  intros Hne. induction l as [|x l IH]; simpl; [reflexivity|].
  destruct (name_eqb (project_name x) name) eqn:E.
  - apply name_eqb_eq in E.
    destruct (name_eqb (project_name x) other) eqn:E'; [|reflexivity].
    apply name_eqb_eq in E'. congruence.
  - simpl. rewrite IH. reflexivity.
Qed.

(** X26.  On a list with unique project names, settings that were added are the
    ones found under their name, and the names stay unique. *)
Theorem added_settings_are_found (l : SettingsList) (new_settings : Settings)
    (Hunique : NoDup (get_project_names l)) :
  get_settings (add_settings l new_settings) (project_name new_settings)
  = Some new_settings
  /\ NoDup (get_project_names (add_settings l new_settings)).
Proof.
  unfold add_settings.
  destruct (@pop_first_names (project_name new_settings) l Hunique) as [Hnd [Hnot _]].
  split.
  - rewrite get_settings_app.
    apply get_settings_none in Hnot. rewrite Hnot. simpl.
    replace (name_eqb (project_name new_settings) (project_name new_settings))
      with true by (symmetry; apply name_eqb_eq; reflexivity).
    reflexivity.
  - unfold get_project_names in *. rewrite map_app. simpl.
    eapply Permutation_NoDup; [apply Permutation_cons_append|].
    constructor; assumption.
Qed.

(** X27.  Adding settings does not change what is found under any other name. *)
Theorem other_projects_untouched (l : SettingsList) (new_settings : Settings)
    (other : option string)
    (Hother : other <> project_name new_settings) :
  get_settings (add_settings l new_settings) other = get_settings l other.
Proof.
  unfold add_settings. rewrite get_settings_app, get_settings_pop_other by exact Hother.
  destruct (get_settings l other); [reflexivity|]. simpl.
  destruct (name_eqb (project_name new_settings) other) eqn:E; [|reflexivity].
  apply name_eqb_eq in E. congruence.
Qed.

(** ** Rooms of windows, free heights and solid boundaries *)

(** X28.  [get_room_of_window] returns what the last phase whose lookup does
    not raise answers, also when that is [None] and an earlier phase had a
    room. *)
Theorem last_answering_phase_decides (Phase Room : Type)
    (FromRoom : Phase -> option (option Room))
    (before after : list Phase) (phase : Phase) (found : option Room)
    (Hphase : FromRoom phase = Some found)
    (Hafter : forall q, In q after -> FromRoom q = None) :
  get_room_of_window FromRoom (before ++ phase :: after) = found.
Proof.
  unfold get_room_of_window. rewrite fold_left_app. cbn [fold_left].
  rewrite Hphase. generalize found. clear Hphase.
  induction after as [|q after IH]; intros r; simpl; [reflexivity|].
  rewrite (Hafter q) by (left; reflexivity).
  apply IH. intros q' Hq'. apply Hafter. right. exact Hq'.
Qed.

Section RayFacts.

Context {K : Kernel}.


Lemma faces_up_normal (face : Face) :
  faces_up face = true -> (999 # 1000 < Zof (FaceNormal face))%Q.
Proof.
  unfold faces_up. intros H.
  apply andb_true_iff in H. destruct H as [_ H].
  apply Qgtb_lt in H. apply Qabs_Qlt_condition in H. destruct H as [H _].
  unfold tolerance in H.
  apply (Qplus_lt_l _ _ (- (1))). 
  eapply Qlt_le_trans; [|apply Qle_refl].
  eapply Qle_lt_trans; [|exact H]. unfold Qle; simpl; lia.
Qed.

(** X30.  [get_boundary_from_solid] returns the edge loops of the first face
    whose normal is within the tolerance of +Z (so its Z exceeds 0.999), and
    [None] exactly when there is no such face. *)
Theorem boundary_is_first_upward_face (faces : list Face) :
  (get_boundary_from_solid faces = None <->
   Forall (fun face => faces_up face = false) faces)
  /\
  (forall loops,
     get_boundary_from_solid faces = Some loops ->
     exists before face after,
       faces = before ++ face :: after /\
       Forall (fun face => faces_up face = false) before /\
       loops = GetEdgesAsCurveLoops face /\
       (999 # 1000 < Zof (FaceNormal face))%Q).
Proof.
  induction faces as [|face faces [IHn IHs]]; simpl.
  - split; [split; [constructor | reflexivity] | discriminate].
  - destruct (faces_up face) eqn:Hup.
    + split.
      * split; [discriminate|]. intros H. inversion H; subst. congruence.
      * intros loops H. injection H as <-.
        exists [], face, faces. split; [reflexivity|]. split; [constructor|].
        split; [reflexivity | apply faces_up_normal; exact Hup].
    + split.
      * rewrite IHn. split; [intros H; constructor; assumption|].
        intros H; inversion H; assumption.
      * intros loops H. destruct (IHs loops H) as [b [f [a [He [Hb [Hl Hz]]]]]].
        exists (face :: b), f, a. split; [rewrite He; reflexivity|].
        split; [constructor; assumption|]. split; assumption.
Qed.

End RayFacts.

(** ** The further properties on the examples *)

Lemma planar_keeps_end_points : keeps_end_points (K := planar_kernel).
Proof.
  intros p q c H. cbn [CreateBound planar_kernel] in H. unfold pl_create in H.
  destruct (veqb p q); [discriminate|]. injection H as <-. split; reflexivity.
Qed.

Lemma shaft_square_closed : closed_loop (K := planar_kernel) shaft_square.
Proof.
  intros [|[|[|[|i]]]] curve next Hc Hn; unfold shaft_square in Hc;
    cbn [nth_error] in Hc; try (destruct i; discriminate);
    injection Hc as <-; vm_compute in Hn; injection Hn as <-; reflexivity.
Qed.


Lemma first_overlap_is_first_tested_overlap_witness :
  tested_pair (length (curled 2)) 1 4
  /\ Intersect (hline 0 0 2 0 0) (hline 1 1 1 (-2) 0)
     = (Overlap, [mkXYZ 1%Q 0%Q 0%Q]).
Proof.
  assert (Hfound : first_overlap (curled 2) = Some first_curl_defect)
    by reflexivity.
  destruct (@first_overlap_is_first_tested_overlap planar_kernel (curled 2)
              first_curl_defect Hfound)
    as [_ [_ [Hpair [Hoverlap _]]]].
  split; [exact Hpair | exact Hoverlap].
Defined.

Lemma pass_shortens_or_rotates_witness :
  exists r,
    remove_single_imperfection_from_boundary (curled 2) 0 = Ret r
    /\ (length r < length (curled 2)
        \/ exists n, n <= 4 /\ r = Nat.iter n rotate (curled 2)
                     /\ first_overlap r = None).
Proof.
  eexists. split; [vm_compute; reflexivity|].
  apply (pass_shortens_or_rotates (K := planar_kernel)).
  vm_compute; reflexivity.
Defined.

Lemma repair_never_lengthens_witness :
  exists r,
    remove_imperfections_from_boundary (curled 11) = Ret r
    /\ length r <= length (curled 11)
    /\ (first_overlap r <> None -> length r + max_iterations <= length (curled 11)).
Proof.
  eexists. split; [vm_compute; reflexivity|].
  apply (repair_never_lengthens (K := planar_kernel)).
  vm_compute; reflexivity.
Defined.

Lemma short_boundary_unchanged_witness :
  remove_imperfections_from_boundary (firstn 3 square_room)
  = Ret (firstn 3 square_room).
Proof.
  apply (short_boundary_unchanged (K := planar_kernel)). simpl. lia.
Defined.

Lemma refused_line_makes_repair_raise_witness :
  remove_imperfections_from_boundary pinched = Raise ArgumentsInconsistentException.
Proof.
  apply (@refused_line_makes_repair_raise planar_kernel pinched pinch_defect
           (mkXYZ 2%Q 0%Q 0%Q) []).
  - reflexivity.
  - simpl. lia.
  - reflexivity.
  - right. vm_compute; reflexivity.
Defined.

Lemma no_loop_selected_iff_no_positive_area_witness :
  get_largest_curveloop_from_room_boundary
    [map segment_of square_room; map segment_of second_room] = None
  <-> Forall (fun segments =>
                (calculate_surface_area_of_boundary (map GetCurve segments) <= 0)%Q)
             [map segment_of square_room; map segment_of second_room].
Proof.
  apply (no_loop_selected_iff_no_positive_area (K := planar_kernel)).
  simpl. lia.
Defined.

Lemma last_positive_loop_is_selected_witness :
  get_largest_curveloop_from_room_boundary
    ([map segment_of big_loop] ++ [map segment_of small_loop])
  = Some (map GetCurve (map segment_of small_loop)).
Proof.
  apply (last_positive_loop_is_selected (K := planar_kernel)).
  - discriminate.
  - vm_compute; reflexivity.
Defined.

Lemma resolved_orientation_shape_witness :
  (Some (mkXYZ 0%Q (-1)%Q 0%Q), Some (mkXYZ 1%Q 0%Q 0%Q)) = (None, None)
  \/ exists d p curve,
       (Some (mkXYZ 0%Q (-1)%Q 0%Q), Some (mkXYZ 1%Q 0%Q 0%Q))
       = (Some d, Some (reported p curve)) /\ In curve square_room /\
       (d = FacingOrientation window_facing_down
        \/ d = reverse_of window_facing_down).
Proof.
  apply (@resolved_orientation_shape planar_kernel window_facing_down square_room).
  vm_compute; reflexivity.
Defined.

Lemma sentinel_means_no_hit_witness :
  exists facing_line reverse_line,
    test_ray (Location_Point window_far_away) (FacingOrientation window_far_away)
    = Ret facing_line /\
    test_ray (Location_Point window_far_away) (reverse_of window_far_away)
    = Ret reverse_line /\
    forall c, In c square_room ->
      missed_by reverse_line c /\ missed_by facing_line c.
Proof.
  apply (@sentinel_means_no_hit planar_kernel window_far_away square_room).
  vm_compute; reflexivity.
Defined.

Lemma find_from_room_skips_unresolved_witness :
  find_from_room window_facing_down [second_room] = Ret (None, None)
  /\ find_from_room window_facing_down ([second_room] ++ square_room :: [])
     = Ret (Some (mkXYZ 0%Q (-1)%Q 0%Q), Some (mkXYZ 1%Q 0%Q 0%Q)).
Proof.
  destruct (@find_from_room_skips_unresolved planar_kernel window_facing_down
              [second_room]) as [Hnone Hfirst].
  - intros b [<-|[]]. vm_compute; reflexivity.
  - split; [exact Hnone|]. apply Hfirst. vm_compute; reflexivity.
Defined.

Lemma flattening_sets_elevation_witness :
  exists flat,
    set_z_coordinate_of_line (hline 0 0 2 0 0) 5%Q = Ret flat
    /\ GetEndPoint flat 0 = mkXYZ 0%Q 0%Q 5%Q
    /\ GetEndPoint flat 1 = mkXYZ (inject_Z 2) 0%Q 5%Q
    /\ set_z_coordinate_of_line flat 7%Q
       = set_z_coordinate_of_line (hline 0 0 2 0 0) 7%Q.
Proof.
  eexists. split; [vm_compute; reflexivity|].
  apply (@flattening_sets_elevation planar_kernel (hline 0 0 2 0 0)).
  - exact planar_keeps_end_points.
  - vm_compute; reflexivity.
Defined.

Lemma zone_extends_along_facing_witness :
  calculate_full_daylight_zone free_line (window_of_size 1 2) south origin
    "Height" "Width"
  = loop_through free_line
      (radd (rscale (- (2 / 2)) (mkXYZ (- Yof south)%R (Xof south) 0%R))
            (resolved_anchor (window_of_size 1 2) origin))
      (radd (rscale (2 / 2) (mkXYZ (- Yof south)%R (Xof south) 0%R))
            (resolved_anchor (window_of_size 1 2) origin))
      (radd (radd (rscale (1 + 2 / 2) (mkXYZ (- Yof south)%R (Xof south) 0%R))
                  (rscale 1 (mkXYZ (Xof south) (Yof south) 0%R)))
            (resolved_anchor (window_of_size 1 2) origin))
      (radd (radd (rscale (- (1 + 2 / 2)) (mkXYZ (- Yof south)%R (Xof south) 0%R))
                  (rscale 1 (mkXYZ (Xof south) (Yof south) 0%R)))
            (resolved_anchor (window_of_size 1 2) origin)).
Proof.
  apply (@zone_extends_along_facing _ free_line (window_of_size 1 2) south origin
           "Height" "Width" 1%R 2%R).
  - reflexivity.
  - reflexivity.
  - lra.
  - lra.
  - unfold south; cbn [Xof Yof]; lra.
Defined.

Lemma zone_is_congruent_trapezoid_witness :
  exists p1 p2 p3 p4,
    calculate_full_daylight_zone free_line (window_of_size 1 2) south origin
      "Height" "Width"
    = loop_through free_line p1 p2 p3 p4 /\
    dist2 p1 p2 = (2 * 2)%R /\
    dist2 p2 p3 = (2 * (1 * 1))%R /\
    dist2 p3 p4 = ((2 * 1 + 2) * (2 * 1 + 2))%R /\
    dist2 p4 p1 = (2 * (1 * 1))%R /\
    Forall (fun p => Zof p = Zof (Location (window_of_size 1 2))) [p1; p2; p3; p4].
Proof.
  apply (@zone_is_congruent_trapezoid _ free_line (window_of_size 1 2) south origin
           "Height" "Width" 1%R 2%R).
  - reflexivity.
  - reflexivity.
  - lra.
  - lra.
  - unfold south; cbn [Yof]; lra.
Defined.

Lemma candidate_fails_only_on_refused_line_witness :
  exists i curve v_prev v v_next,
    nth_error (A := Curve (Kernel := planar_kernel)) square_room i = Some curve /\
    nth_error (normal_vectors (K := planar_kernel) square_room 1%Q)
              (cyclic_prev (length (normal_vectors (K := planar_kernel) square_room 1%Q)) i)
    = Some v_prev /\
    nth_error (normal_vectors (K := planar_kernel) square_room 1%Q) i = Some v /\
    nth_error (normal_vectors (K := planar_kernel) square_room 1%Q)
              (cyclic_next (length (normal_vectors (K := planar_kernel) square_room 1%Q)) i)
    = Some v_next /\
    CreateBound (vadd (vadd (GetEndPoint curve 0) v) v_prev)
                (vadd (vadd (GetEndPoint curve 1) v) v_next) = None.
Proof.
  apply (@candidate_fails_only_on_refused_line planar_kernel
           (normal_vectors (K := planar_kernel) square_room 1%Q) square_room).
  - reflexivity.
  - vm_compute; reflexivity.
Defined.


Lemma button_without_record_raises_witness :
  daylight_button no_steps [settings_named "A"] (Some "B"%string) empty_host
  = (empty_host, Raise AttributeError).
Proof.
  apply button_without_record_raises.
  simpl. intros [H|[]]. discriminate.
Defined.

Lemma added_settings_are_found_witness :
  get_settings (add_settings [settings_named "A"; settings_named "B"]
                  settings_without_width)
    (project_name settings_without_width)
  = Some settings_without_width
  /\ NoDup (get_project_names
              (add_settings [settings_named "A"; settings_named "B"]
                 settings_without_width)).
Proof.
  apply added_settings_are_found.
  simpl. repeat constructor; simpl; intuition discriminate.
Defined.

Lemma other_projects_untouched_witness :
  get_settings (add_settings [settings_named "A"; settings_named "B"]
                  (settings_named "A")) (Some "B"%string)
  = get_settings [settings_named "A"; settings_named "B"] (Some "B"%string).
Proof.
  apply other_projects_untouched. simpl. discriminate.
Defined.

Lemma last_answering_phase_decides_witness :
  get_room_of_window example_from_room ([0] ++ 1 :: [2]) = None.
Proof.
  apply (@last_answering_phase_decides nat nat example_from_room [0] [2] 1 None).
  - reflexivity.
  - intros q [<-|[]]. reflexivity.
Defined.

